(** * Action-queue types and the Thorchain Savers stake plugin

    A shallow embedding of

    - [src/controllers/action-queue/types.ts]: the data model of action
      programs (operations, effects, program state);
    - [src/plugins/stake-plugins/thorchainSavers/tcSavers.ts]: the stake
      plugin ([fetchChangeQuote], [fetchStakePosition], [stakeRequest], ...).

    Asynchronous functions are embedded in a state-and-error monad [Prog]:
    the state holds the module-level variables of [tcSavers.ts] and the list
    of calls made to the outside world; a rejected promise is a [Throw]. *)

From Stdlib Require Import ZArith QArith Qabs String Ascii Bool Lia.
From Stdlib Require Import DecimalString Lqa.
From stdpp Require Import gmap strings list.

Set Warnings "-register-all".

Local Open Scope Z_scope.
Local Open Scope string_scope.

(** ** Numerals of [biggystring]

    Amounts are decimal numerals held in JS strings and are only ever
    combined through [biggystring].  A numeral is modelled by the rational
    number it denotes. *)

Definition BigNum : Type := Q.
Bind Scope Q_scope with BigNum.

Module biggystring.

Definition add (x y : BigNum) : BigNum := (x + y)%Q.
Definition sub (x y : BigNum) : BigNum := (x - y)%Q.
Definition mul (x y : BigNum) : BigNum := (x * y)%Q.

Definition lt (x y : BigNum) : bool :=
  match (x ?= y)%Q with Lt => true | _ => false end.

Definition gt (x y : BigNum) : bool :=
  match (x ?= y)%Q with Gt => true | _ => false end.

(** [max] returns its second argument unless the first is strictly larger. *)
Definition max (x y : BigNum) : BigNum := if gt x y then x else y.

(** Keep [p] decimals and drop the rest (towards zero, as the integer
    division of [bn.js] and the [substr] of [toFixed] do). *)
Definition truncate (p : nat) (x : BigNum) : BigNum :=
  let scale := 10 ^ Z.of_nat p in
  Qmake (Z.quot (Qnum x * scale) (Zpos (Qden x))) (Z.to_pos scale).

(** [div x y precision]: [None] stands for the exception of a division
    by zero. *)
Definition div (x y : BigNum) (precision : nat) : option BigNum :=
  if Qeq_bool y 0 then None else Some (truncate precision (x / y)%Q).

(** [toFixed x minPrecision maxPrecision]: padding up to [minPrecision]
    does not change the number denoted. *)
Definition toFixed (x : BigNum) (minPrecision maxPrecision : nat) : BigNum :=
  truncate maxPrecision x.

End biggystring.

(** ** Exceptions

    The JS exceptions that the embedded code throws or lets through. *)

Inductive Error : Type :=
| JsError (message : string)
| TypeError (message : string)
| InsufficientFundsError (currencyCode : string).

Inductive Result (A : Type) : Type :=
| Ok (a : A)
| Throw (e : Error).

Arguments Ok {A} a.
Arguments Throw {A} e.

(** [x == null] *)
Definition is_null {A} (x : option A) : bool :=
  match x with None => true | Some _ => false end.

(** ** Action operations ([action-queue/types.ts])

    [ActionOp] is the union of the ten operation interfaces; the [type] field
    of each is its tag. *)

Inductive AmountFor : Type := AmountFrom | AmountTo.

Inductive ActionOp : Type :=
| SeqActionOp (actions : list ActionOp)
| ParActionOp (actions : list ActionOp)
| BroadcastTxActionOp (pluginId : string) (rawTx : list Byte.byte)
| WyreBuyActionOp (nativeAmount : string) (walletId : string)
    (tokenId : option string)
| WyreSellActionOp (wyreAccountId : string) (nativeAmount : string)
    (walletId : string) (tokenId : option string)
| LoanBorrowActionOp (borrowPluginId : string) (nativeAmount : string)
    (walletId : string) (tokenId : option string)
| LoanDepositActionOp (borrowPluginId : string) (nativeAmount : string)
    (walletId : string) (tokenId : option string)
| LoanRepayActionOp (borrowPluginId : string) (nativeAmount : string)
    (walletId : string) (tokenId : option string) (fromTokenId : option string)
| LoanWithdrawActionOp (borrowPluginId : string) (nativeAmount : string)
    (walletId : string) (tokenId : option string)
| SwapActionOp (amountFor : AmountFor) (fromTokenId : option string)
    (fromWalletId : string) (nativeAmount : string)
    (toTokenId : option string) (toWalletId : string).

(** The [type] field of an operation. *)
Definition op_type (op : ActionOp) : string :=
  match op with
  | SeqActionOp _ => "seq"
  | ParActionOp _ => "par"
  | BroadcastTxActionOp _ _ => "broadcast-tx"
  | WyreBuyActionOp _ _ _ => "wyre-buy"
  | WyreSellActionOp _ _ _ _ => "wyre-sell"
  | LoanBorrowActionOp _ _ _ _ => "loan-borrow"
  | LoanDepositActionOp _ _ _ _ => "loan-deposit"
  | LoanRepayActionOp _ _ _ _ _ => "loan-repay"
  | LoanWithdrawActionOp _ _ _ _ => "loan-withdraw"
  | SwapActionOp _ _ _ _ _ _ => "swap"
  end.

(** The string-literal union [ActionOpTypes], as the list of its members. *)
Definition ActionOpTypes : list string :=
  [ "seq"; "par"; "wyre-buy"; "wyre-sell"; "loan-borrow"; "loan-deposit";
    "loan-repay"; "loan-withdraw"; "swap"; "toast"; "delay" ].

Definition is_ActionOpType (tag : string) : bool :=
  existsb (String.eqb tag) ActionOpTypes.

(** The tags of the ten interfaces that make up [ActionOp]. *)
Definition ActionOp_tags : list string :=
  [ "seq"; "par"; "broadcast-tx"; "wyre-buy"; "wyre-sell"; "loan-borrow";
    "loan-deposit"; "loan-repay"; "loan-withdraw"; "swap" ].

(** The children of a composite operation. *)
Definition op_actions (op : ActionOp) : option (list ActionOp) :=
  match op with
  | SeqActionOp actions | ParActionOp actions => Some actions
  | _ => None
  end.

(** ** Action effects *)

Inductive ActionEffect : Type :=
| SeqEffect (opIndex : nat) (childEffects : list (option ActionEffect))
| ParEffect (childEffects : list (option ActionEffect))
| AddressBalanceEffect (address : string) (aboveAmount : option BigNum)
    (belowAmount : option BigNum) (walletId : string) (tokenId : option string)
| PushEventEffect (eventId : string) (effect : option ActionEffect)
| PriceLevelEffect (currencyPair : string) (aboveRate : option Q)
    (belowRate : option Q)
| TxConfsEffect (txId : string) (walletId : string) (confirmations : nat)
| DoneEffect (error : option Error) (cancelled : option bool).

Definition effect_type (e : ActionEffect) : string :=
  match e with
  | SeqEffect _ _ => "seq"
  | ParEffect _ => "par"
  | AddressBalanceEffect _ _ _ _ _ => "address-balance"
  | PushEventEffect _ _ => "push-event"
  | PriceLevelEffect _ _ _ => "price-level"
  | TxConfsEffect _ _ _ => "tx-confs"
  | DoneEffect _ _ => "done"
  end.

(** ** Programs and their state *)

Record ActionProgram : Type := {
  programId : string;
  actionOp : ActionOp;
  mockMode : option bool
}.

Record ActionProgramState : Type := {
  clientId : string;
  state_programId : string;
  effect : option ActionEffect;
  effective : bool;
  executing : bool;
  lastExecutionTime : Z;
  nextExecutionTime : Z
}.

Record EffectCheckResult : Type := {
  delay : Z;
  isEffective : bool;
  updatedEffect : option ActionEffect
}.

(** ** The effect checker

    [checkActionEffect] is declared in [ExecutionContext] but its body is not
    among the sources; only its result type [EffectCheckResult] is. *)

(** Modelled from the spec: the capabilities the checker consumes, which are
    missing from the sources (section 6): balance lookup by
    [(walletId, address, tokenId)], exchange-rate lookup by currency pair,
    confirmation lookup by [(txId, walletId)], the sticky flag of a push
    event, and the advisory polling delay of each kind of leaf effect.
    A lookup may fail.  Rates are JS numbers; they are taken as rationals. *)
Record CheckerCapabilities : Type := {
  balanceOf : string -> string -> option string -> Result BigNum;
  rateOf : string -> Result Q;
  confirmationsOf : string -> string -> Result nat;
  eventSignaled : string -> Result bool;
  leafDelay : ActionEffect -> Z
}.

(** Modelled from the spec: the test of a value against two optional bounds,
    missing from the sources with the checker.  Section 4.2: "absent bound =
    unconstrained on that side"; "both present means effective only when
    both hold simultaneously"; section 8: "(aboveAmount undefined or balance
    > aboveAmount) and (belowAmount undefined or balance < belowAmount)".
    The remark of section 4.2 that "at least one bound must be set for the
    condition to ever become true" is at odds with these on an effect without
    any bound; it is read as a requirement on whoever builds the effect, and
    the test treats each absent bound as unconstrained, as the other three
    sentences say. *)
Definition within_bounds (above below : option Q) (x : Q) : bool :=
  match above with None => true | Some a => biggystring.gt x a end
  && match below with None => true | Some b => biggystring.lt x b end.

(** Modelled from the spec: "the minimum suggested delay among active
    children" (section 4.2), accumulated over the children of a [par]. *)
Definition min_delay (d : option Z) (d' : Z) : option Z :=
  match d with
  | None => Some d'
  | Some d0 => Some (Z.min d0 d')
  end.

Section EffectChecker.

Variable ctx : CheckerCapabilities.

(** Modelled from the spec: the body of [checkActionEffect], which is missing
    from the sources.  Section 4.2 of the specification, clause by clause:
    - [address-balance]: fetch the balance; "effective if balance is above
      aboveAmount and/or below belowAmount (whichever bounds are present;
      absent bound = unconstrained on that side; [...] both present means
      effective only when both hold simultaneously)", see [within_bounds];
    - [price-level]: "analogous", with the rate and [aboveRate]/[belowRate];
    - [tx-confs]: "effective once the confirmation count >= target";
    - [push-event]: "effective once the named event id has been externally
      signaled";
    - [seq]: check "only the active child", the one at [opIndex];
    - [par]: check "all non-done children"; "all must be effective"; the
      delay is "the minimum suggested delay among active children";
    - [done]: "always effective immediately, delay = 0", "unchanged effect".
    A failed lookup, and a child slot that is [null] or absent, are
    exceptions.  The specification names no case in which [updatedEffect]
    is returned, so none is. *)
Fixpoint checkActionEffect (e : ActionEffect) : Result EffectCheckResult :=
  match e with
  | SeqEffect opIndex childEffects =>
      (fix active (l : list (option ActionEffect)) (i : nat) :=
         match l, i with
         | Some child :: _, O => checkActionEffect child
         | _ :: l', S i' => active l' i'
         | _, _ => Throw (TypeError "no effect at opIndex")
         end) childEffects opIndex
  | ParEffect childEffects =>
      match
        (fix join (l : list (option ActionEffect))
           : Result (option Z * bool) :=
           match l with
           | [] => Ok (None, true)
           | None :: _ => Throw (TypeError "null child effect")
           | Some (DoneEffect _ _) :: l' => join l'
           | Some child :: l' =>
               match checkActionEffect child with
               | Throw err => Throw err
               | Ok r =>
                   match join l' with
                   | Throw err => Throw err
                   | Ok (d, ok) => Ok (min_delay d (delay r), isEffective r && ok)
                   end
               end
           end) childEffects
      with
      | Throw err => Throw err
      | Ok (d, ok) =>
          Ok {| delay := default 0 d; isEffective := ok; updatedEffect := None |}
      end
  | AddressBalanceEffect address aboveAmount belowAmount walletId tokenId =>
      match balanceOf ctx walletId address tokenId with
      | Throw err => Throw err
      | Ok balance =>
          Ok {| delay := leafDelay ctx e;
                isEffective := within_bounds aboveAmount belowAmount balance;
                updatedEffect := None |}
      end
  | PriceLevelEffect currencyPair aboveRate belowRate =>
      match rateOf ctx currencyPair with
      | Throw err => Throw err
      | Ok rate =>
          Ok {| delay := leafDelay ctx e;
                isEffective := within_bounds aboveRate belowRate rate;
                updatedEffect := None |}
      end
  | TxConfsEffect txId walletId confirmations =>
      match confirmationsOf ctx txId walletId with
      | Throw err => Throw err
      | Ok n =>
          Ok {| delay := leafDelay ctx e;
                isEffective := (confirmations <=? n)%nat;
                updatedEffect := None |}
      end
  | PushEventEffect eventId _ =>
      match eventSignaled ctx eventId with
      | Throw err => Throw err
      | Ok fired =>
          Ok {| delay := leafDelay ctx e;
                isEffective := fired;
                updatedEffect := None |}
      end
  | DoneEffect _ _ =>
      Ok {| delay := 0; isEffective := true; updatedEffect := None |}
  end.

End EffectChecker.


(** Modelled from the spec: the scheduler's use of a check result, which is
    missing from the sources (section 4.3, rule 4): "if isEffective, set
    effective=true and, if an updatedEffect was returned, replace the stored
    effect with it". *)
Definition storedEffectAfter (stored : ActionEffect) (r : EffectCheckResult)
  : ActionEffect :=
  if isEffective r then
    match updatedEffect r with
    | Some e' => e'
    | None => stored
    end
  else stored.

(** ** The stake plugin: data ([stake-plugins/types], [edge-core-js]) *)

Record AssetId : Type := {
  asset_pluginId : string;
  asset_currencyCode : string
}.

Record StakeProviderInfo : Type := {
  displayName : string;
  provider_pluginId : string;
  stakeProviderId : string
}.

(** The optional warning and display fields of [StakePolicy] are never set by
    this plugin and are left out. *)
Record StakePolicy : Type := {
  stakePolicyId : string;
  policy_stakeProviderInfo : option StakeProviderInfo;
  apy : Q;
  rewardAssets : list AssetId;
  stakeAssets : list AssetId
}.

Record EdgeCurrencyInfo : Type := {
  currencyInfo_pluginId : string;
  currencyInfo_currencyCode : string
}.

Record EdgeReceiveAddress : Type := {
  publicAddress : string;
  nativeBalance : option BigNum;
  segwitAddress : option string;
  segwitNativeBalance : option BigNum
}.

Record EdgeSpendTarget : Type := {
  target_publicAddress : string;
  target_nativeAmount : BigNum
}.

Record SpendOtherParams : Type := {
  outputSort : option string;
  utxoSourceAddress : option string;
  forceChangeAddress : option string
}.

Record EdgeMetadata : Type := {
  metadata_name : string;
  metadata_category : string
}.

Record EdgeSpendInfo : Type := {
  spendTargets : list EdgeSpendTarget;
  otherParams : option SpendOtherParams;
  metadata : option EdgeMetadata
}.

Record EdgeTransaction : Type := {
  txid : string;
  networkFee : BigNum
}.

(** The wallet is an opaque capability provider: each method is the answer
    the wallet gives to a call, a value or an exception. *)
Record EdgeCurrencyWallet : Type := {
  currencyInfo : EdgeCurrencyInfo;
  balances : gmap string BigNum;
  nativeToDenomination : BigNum -> string -> Result BigNum;
  denominationToNative : BigNum -> string -> Result BigNum;
  getReceiveAddress : string -> Result EdgeReceiveAddress;
  makeSpend : EdgeSpendInfo -> Result EdgeTransaction;
  signTx : EdgeTransaction -> Result EdgeTransaction;
  broadcastTx : EdgeTransaction -> Result EdgeTransaction;
  saveTx : EdgeTransaction -> Result unit
}.

Inductive StakeAction : Type := stake | unstake | claim | unstakeExact.

Record ChangeQuoteRequest : Type := {
  action : StakeAction;
  request_stakePolicyId : string;
  request_currencyCode : string;
  request_nativeAmount : BigNum;
  request_wallet : EdgeCurrencyWallet
}.

Record QuoteAllocation : Type := {
  allocationType : string;
  allocation_pluginId : string;
  allocation_currencyCode : string;
  allocation_nativeAmount : BigNum
}.

Record StakePositionRequest : Type := {
  position_stakePolicyId : string;
  position_wallet : EdgeCurrencyWallet
}.

Record PositionAllocation : Type := {
  position_pluginId : string;
  position_currencyCode : string;
  position_allocationType : string;
  position_nativeAmount : BigNum
}.

Record StakePosition : Type := {
  position_allocations : list PositionAllocation;
  canStake : bool;
  canUnstake : bool;
  canClaim : bool
}.

(** ** The stake plugin: network payloads (the cleaners of [tcSavers.ts]) *)

Record InboundAddress : Type := {
  inbound_address_address : string;
  chain : string;
  outbound_fee : string;
  synth_mint_paused : option bool;
  halted : bool
}.

(** [asExchangeInfo(json).swap.plugins.thorchain] *)
Record ExchangeInfo : Type := {
  info_midgardServers : list string;
  info_thornodeServers : option (list string);
  info_nineRealmsServers : option (list string);
  info_thorSwapServers : option (list string)
}.

Record Saver : Type := {
  saver_asset : string;
  asset_address : string;
  last_add_height : Z;
  units : BigNum;
  asset_deposit_value : BigNum
}.

Record Pool : Type := {
  pool_asset : string;
  status : string;
  assetPrice : BigNum;
  assetPriceUSD : BigNum;
  assetDepth : BigNum;
  saversDepth : BigNum;
  saversUnits : BigNum;
  runeDepth : BigNum
}.

Record QuoteDeposit : Type := {
  expected_amount_out : BigNum;
  inbound_address : string
}.

(** A JSON body, classified by the cleaner that accepts it. *)
Inductive Json : Type :=
| JsonInboundAddresses (l : list InboundAddress)
| JsonExchangeInfo (info : ExchangeInfo)
| JsonSavers (l : list Saver)
| JsonPools (l : list Pool)
| JsonInfoServerResponse (policies : gmap string Q)
| JsonOther.

Definition cleanerError : Error := TypeError "cleaner: unexpected JSON".

Definition asInboundAddresses (j : Json) : Result (list InboundAddress) :=
  match j with JsonInboundAddresses l => Ok l | _ => Throw cleanerError end.

Definition asExchangeInfo (j : Json) : Result ExchangeInfo :=
  match j with JsonExchangeInfo i => Ok i | _ => Throw cleanerError end.

Definition asSavers (j : Json) : Result (list Saver) :=
  match j with JsonSavers l => Ok l | _ => Throw cleanerError end.

Definition asPools (j : Json) : Result (list Pool) :=
  match j with JsonPools l => Ok l | _ => Throw cleanerError end.

Definition asInfoServerResponse (j : Json) : Result (gmap string Q) :=
  match j with JsonInfoServerResponse m => Ok m | _ => Throw cleanerError end.

(** A fetch [Response]: [text()] and [json()] may reject. *)
Record Response : Type := {
  ok : bool;
  text : Result string;
  json : Result Json
}.

(** ** The outside world

    Module-level variables of [tcSavers.ts] (the [let] bindings and the
    [policies] array, whose [apy] fields are assigned in place). *)
Record Globals : Type := {
  exchangeInfo : option ExchangeInfo;
  exchangeInfoLastUpdate : Z;
  inboundAddresses : option (list InboundAddress);
  midgardServers : list string;
  thornodeServers : list string;
  inboundAddressesLastUpdate : Z;
  policies : list StakePolicy
}.

(** A call that leaves the plugin. *)
Inductive Call : Type :=
| CallDateNow
| CallConsole (message : string)
| CallFetchInfo (path : string)
| CallFetchWaterfall (servers : list string) (path : string)
| CallCleanMultiFetch (servers : list string) (path : string)
| CallNativeToDenomination (amount : BigNum) (code : string)
| CallDenominationToNative (amount : BigNum) (code : string)
| CallGetReceiveAddress (code : string)
| CallMakeSpend (info : EdgeSpendInfo)
| CallSignTx (tx : EdgeTransaction)
| CallBroadcastTx (tx : EdgeTransaction)
| CallSaveTx (tx : EdgeTransaction).

(** Calls that reach the network, and the Thorchain quote among them. *)
Definition is_network_call (c : Call) : bool :=
  match c with
  | CallFetchInfo _ | CallFetchWaterfall _ _ | CallCleanMultiFetch _ _ => true
  | _ => false
  end.

Definition is_quote_fetch (c : Call) : bool :=
  match c with
  | CallCleanMultiFetch _ _ => true
  | _ => false
  end.

Definition is_wallet_spend (c : Call) : bool :=
  match c with
  | CallMakeSpend _ | CallSignTx _ | CallBroadcastTx _ | CallSaveTx _ => true
  | _ => false
  end.

Record World : Type := {
  globals : Globals;
  calls : list Call
}.

(** What the network and the clock answer.  [fetchInfo], [fetchWaterfall] and
    [cleanMultiFetch] belong to [util/network], which is not among the
    sources: they are taken as given, [cleanMultiFetch] with the cleaner
    [asQuoteDeposit] already applied. *)
Record Env : Type := {
  dateNow : Z;
  fetchInfo : string -> Result Response;
  fetchWaterfall : list string -> string -> Result Response;
  cleanMultiFetch : list string -> string -> Result QuoteDeposit
}.

(** ** The monad of asynchronous functions *)

Definition Prog (A : Type) : Type := World -> Result A * World.

Definition ret {A} (a : A) : Prog A := fun w => (Ok a, w).

Definition throw {A} (e : Error) : Prog A := fun w => (Throw e, w).

Definition bind {A B} (p : Prog A) (k : A -> Prog B) : Prog B :=
  fun w =>
    match p w with
    | (Ok a, w') => k a w'
    | (Throw e, w') => (Throw e, w')
    end.

Definition try_catch {A} (p : Prog A) (handler : Error -> Prog A) : Prog A :=
  fun w =>
    match p w with
    | (Ok a, w') => (Ok a, w')
    | (Throw e, w') => handler e w'
    end.

(** A call to the outside: it is recorded, and its answer is returned. *)
Definition perform {A} (c : Call) (answer : Result A) : Prog A :=
  fun w => (answer, {| globals := globals w; calls := calls w ++ [c] |}).

Definition liftResult {A} (r : Result A) : Prog A := fun w => (r, w).

Definition getGlobals : Prog Globals := fun w => (Ok (globals w), w).

Definition modifyGlobals (f : Globals -> Globals) : Prog unit :=
  fun w => (Ok tt, {| globals := f (globals w); calls := calls w |}).

Declare Scope prog_scope.
Delimit Scope prog_scope with prog.

Notation "x <- p ;; k" := (bind p (fun x => k))
  (at level 100, p at next level, right associativity) : prog_scope.
Notation "p ;; k" := (bind p (fun _ => k))
  (at level 100, right associativity) : prog_scope.

Local Open Scope prog_scope.

Definition message_of (e : Error) : string :=
  match e with
  | JsError m | TypeError m => m
  | InsufficientFundsError _ => "Insufficient funds"
  end.

(** The text of a numeral, as it appears in a template string: the integer
    part and up to [DIVIDE_PRECISION] decimals. *)
Fixpoint decimals (n : nat) (num den : Z) : string :=
  match n with
  | O => ""
  | S n' =>
      if (num =? 0)%Z then ""
      else
        NilZero.string_of_uint (N.to_uint (Z.to_N (num * 10 / den)))
        ++ decimals n' (num * 10 mod den) den
  end.

Definition numeral (x : BigNum) : string :=
  let n := Qnum x in
  let d := Zpos (Qden x) in
  let whole := NilZero.string_of_uint (N.to_uint (Z.to_N (Z.abs n / d))) in
  let frac := decimals 18 (Z.abs n mod d) d in
  (if (n <? 0)%Z then "-" else "")
  ++ whole ++ (if String.eqb frac "" then "" else "." ++ frac).

Definition lower_ascii (c : ascii) : ascii :=
  let n := nat_of_ascii c in
  if ((65 <=? n) && (n <=? 90))%nat then ascii_of_nat (n + 32) else c.

(** [String.prototype.toLowerCase], on the ASCII letters. *)
Fixpoint toLowerCase (s : string) : string :=
  match s with
  | EmptyString => EmptyString
  | String c s' => String (lower_ascii c) (toLowerCase s')
  end.

(** ** Constants and tables of [tcSavers.ts] *)

Definition EXCHANGE_INFO_UPDATE_FREQ_MS : Z := 10 * 60 * 1000.
Definition INBOUND_ADDRESSES_UPDATE_FREQ_MS : Z := 10 * 60 * 1000.
Definition MIDGARD_SERVERS_DEFAULT : list string :=
  ["https://midgard.thorchain.info"].
Definition THORNODE_SERVERS_DEFAULT : list string :=
  ["https://thornode.ninerealms.com"].

Definition TC_SAVERS_WITHDRAWAL_SCALE_UNITS : BigNum := 10000.
Definition DIVIDE_PRECISION : nat := 18.
Definition THOR_LIMIT_UNITS : BigNum := 100000000.

Inductive ChainType : Type := utxo | evm.

Record PolicyCurrencyInfo : Type := {
  chainType : ChainType;
  minAmount : BigNum
}.

Definition utxoInfo : PolicyCurrencyInfo :=
  {| chainType := utxo; minAmount := 10000 |}.

Definition evmInfo : PolicyCurrencyInfo :=
  {| chainType := evm; minAmount := 0 |}.

Definition policyCurrencyInfos : gmap string PolicyCurrencyInfo :=
  list_to_map
    [ ("avalanche", evmInfo);
      ("bitcoin", utxoInfo);
      ("bitcoincash", utxoInfo);
      ("dogecoin", {| chainType := chainType utxoInfo; minAmount := 100000000 |});
      ("ethereum", evmInfo);
      ("litecoin", utxoInfo) ].

Definition stakeProviderInfo : StakeProviderInfo :=
  {| displayName := "Thorchain Savers";
     provider_pluginId := "thorchain";
     stakeProviderId := "tcsavers" |}.

Definition tcPolicy (id plugin code : string) : StakePolicy :=
  {| stakePolicyId := id;
     policy_stakeProviderInfo := Some stakeProviderInfo;
     apy := 0;
     rewardAssets := [ {| asset_pluginId := plugin; asset_currencyCode := code |} ];
     stakeAssets := [ {| asset_pluginId := plugin; asset_currencyCode := code |} ] |}.

(** The [policies] array as the module is loaded. *)
Definition initialPolicies : list StakePolicy :=
  [ tcPolicy "tcsavers/bitcoin:btc=bitcoin:btc" "bitcoin" "BTC";
    tcPolicy "tcsavers/litecoin:ltc=litecoin:ltc" "litecoin" "LTC";
    tcPolicy "tcsavers/bitcoincash:bch=bitcoincash:bch" "bitcoincash" "BCH";
    tcPolicy "tcsavers/dogecoin:doge=dogecoin:doge" "dogecoin" "DOGE";
    tcPolicy "tcsavers/ethereum:eth=ethereum:eth" "ethereum" "ETH";
    tcPolicy "tcsavers/avalanche:avax=avalanche:avax" "avalanche" "AVAX" ].

Definition MAINNET_CODE_TRANSCRIPTION : gmap string string :=
  list_to_map
    [ ("bitcoin", "BTC"); ("bitcoincash", "BCH"); ("binancechain", "BNB");
      ("litecoin", "LTC"); ("ethereum", "ETH"); ("dogecoin", "DOGE");
      ("avalanche", "AVAX"); ("thorchain", "THOR") ].

(** The module-level variables as the module is loaded. *)
Definition initialGlobals : Globals :=
  {| exchangeInfo := None;
     exchangeInfoLastUpdate := 0;
     inboundAddresses := None;
     midgardServers := MIDGARD_SERVERS_DEFAULT;
     thornodeServers := THORNODE_SERVERS_DEFAULT;
     inboundAddressesLastUpdate := 0;
     policies := initialPolicies |}.

(** A table lookup inside a template string: a missing key prints as
    [undefined]. *)
Definition mainnetCodeOf (pluginId : string) : string :=
  default "undefined" (MAINNET_CODE_TRANSCRIPTION !! pluginId).

(** Assignments to the module-level variables. *)
Definition set_exchangeInfo (info : ExchangeInfo) (now : Z) (g : Globals)
  : Globals :=
  {| exchangeInfo := Some info;
     exchangeInfoLastUpdate := now;
     inboundAddresses := inboundAddresses g;
     midgardServers := midgardServers g;
     thornodeServers := thornodeServers g;
     inboundAddressesLastUpdate := inboundAddressesLastUpdate g;
     policies := policies g |}.

Definition set_servers (midgard thornode : list string) (g : Globals)
  : Globals :=
  {| exchangeInfo := exchangeInfo g;
     exchangeInfoLastUpdate := exchangeInfoLastUpdate g;
     inboundAddresses := inboundAddresses g;
     midgardServers := midgard;
     thornodeServers := thornode;
     inboundAddressesLastUpdate := inboundAddressesLastUpdate g;
     policies := policies g |}.

Definition set_inboundAddresses (ia : list InboundAddress) (now : Z)
  (g : Globals) : Globals :=
  {| exchangeInfo := exchangeInfo g;
     exchangeInfoLastUpdate := exchangeInfoLastUpdate g;
     inboundAddresses := Some ia;
     midgardServers := midgardServers g;
     thornodeServers := thornodeServers g;
     inboundAddressesLastUpdate := now;
     policies := policies g |}.

Definition set_policies (ps : list StakePolicy) (g : Globals) : Globals :=
  {| exchangeInfo := exchangeInfo g;
     exchangeInfoLastUpdate := exchangeInfoLastUpdate g;
     inboundAddresses := inboundAddresses g;
     midgardServers := midgardServers g;
     thornodeServers := thornodeServers g;
     inboundAddressesLastUpdate := inboundAddressesLastUpdate g;
     policies := ps |}.

Definition set_apy (a : Q) (policy : StakePolicy) : StakePolicy :=
  {| stakePolicyId := stakePolicyId policy;
     policy_stakeProviderInfo := policy_stakeProviderInfo policy;
     apy := a;
     rewardAssets := rewardAssets policy;
     stakeAssets := stakeAssets policy |}.

(** [policies.find(policy => policy.stakePolicyId === policyId)] *)
Definition lookupPolicy (policies : list StakePolicy) (policyId : string)
  : option StakePolicy :=
  List.find (fun policy => String.eqb (stakePolicyId policy) policyId) policies.

Record ChangeQuote : Type := {
  allocations : list QuoteAllocation;
  approve : Prog unit
}.

(** ** The functions of [tcSavers.ts] *)

Section TcSavers.

Variable env : Env.

Definition updatePolicyApys (infoServerResponse : gmap string Q) : Prog unit :=
  modifyGlobals (fun g =>
    set_policies
      (map (fun policy =>
              match infoServerResponse !! stakePolicyId policy with
              | Some a => set_apy a policy
              | None => policy
              end) (policies g)) g).

Definition getPolicyFromId (policyId : string) : Prog StakePolicy :=
  g <- getGlobals ;;
  match lookupPolicy (policies g) policyId with
  | None => throw (JsError ("Cannot find policy " ++ policyId))
  | Some policy => ret policy
  end.

Definition updateInboundAddresses : Prog unit :=
  now <- perform CallDateNow (Ok (dateNow env)) ;;
  g <- getGlobals ;;
  (if (now - exchangeInfoLastUpdate g >? EXCHANGE_INFO_UPDATE_FREQ_MS)%Z
      || is_null (exchangeInfo g)
   then
     try_catch
       (exchangeInfoResponse <-
          perform (CallFetchInfo "v1/exchangeInfo/edge")
            (fetchInfo env "v1/exchangeInfo/edge") ;;
        if ok exchangeInfoResponse then
          responseJson <- liftResult (json exchangeInfoResponse) ;;
          info <- liftResult (asExchangeInfo responseJson) ;;
          modifyGlobals (set_exchangeInfo info now)
        else
          perform
            (CallConsole
               "Error getting info server exchangeInfo. Using defaults...")
            (Ok tt))
       (fun e =>
          perform
            (CallConsole
               ("Error getting info server exchangeInfo. Using defaults... "
                ++ message_of e))
            (Ok tt))
   else ret tt) ;;
  g <- getGlobals ;;
  match exchangeInfo g with
  | Some info =>
      modifyGlobals
        (set_servers (info_midgardServers info)
           (default (thornodeServers g) (info_thornodeServers info)))
  | None => ret tt
  end ;;
  g <- getGlobals ;;
  if (now - inboundAddressesLastUpdate g >? INBOUND_ADDRESSES_UPDATE_FREQ_MS)%Z
     || is_null (inboundAddresses g)
  then
    iaResponse <-
      perform
        (CallFetchWaterfall (midgardServers g) "v2/thorchain/inbound_addresses")
        (fetchWaterfall env (midgardServers g) "v2/thorchain/inbound_addresses") ;;
    if negb (ok iaResponse) then
      responseText <- liftResult (text iaResponse) ;;
      throw
        (JsError ("Thorchain could not fetch inbound_addresses: " ++ responseText))
    else
      iaJson <- liftResult (json iaResponse) ;;
      ia <- liftResult (asInboundAddresses iaJson) ;;
      modifyGlobals (set_inboundAddresses ia now)
  else ret tt.

Definition getPrimaryAddress (wallet : EdgeCurrencyWallet)
  (currencyCode : string) : Prog (string * BigNum) :=
  r <- perform (CallGetReceiveAddress currencyCode)
         (getReceiveAddress wallet currencyCode) ;;
  let primaryAddress := default (publicAddress r) (segwitAddress r) in
  let addressBalance :=
    match segwitAddress r with
    | Some _ => default 0%Q (segwitNativeBalance r)
    | None => default 0%Q (nativeBalance r)
    end in
  ret (primaryAddress, addressBalance).

(** [wallet.makeSpend], [signTx], [broadcastTx], [saveTx] as recorded calls. *)
Definition callMakeSpend (wallet : EdgeCurrencyWallet) (info : EdgeSpendInfo)
  : Prog EdgeTransaction :=
  perform (CallMakeSpend info) (makeSpend wallet info).

Definition signBroadcastSave (wallet : EdgeCurrencyWallet)
  (tx : EdgeTransaction) : Prog unit :=
  signedTx <- perform (CallSignTx tx) (signTx wallet tx) ;;
  broadcastedTx <- perform (CallBroadcastTx signedTx) (broadcastTx wallet signedTx) ;;
  perform (CallSaveTx broadcastedTx) (saveTx wallet broadcastedTx).

(** [div] by a numeral: the exception of [bn.js] on a zero divisor. *)
Definition divOrThrow (x y : BigNum) (precision : nat) : Prog BigNum :=
  match biggystring.div x y precision with
  | Some q => ret q
  | None => throw (JsError "Assertion failed")
  end.

Definition stakeSpendParams (primaryAddress : string) : SpendOtherParams :=
  {| outputSort := Some "targets";
     utxoSourceAddress := Some primaryAddress;
     forceChangeAddress := Some primaryAddress |}.

Definition spendTo (publicAddress : string) (nativeAmount : BigNum)
  (params : option SpendOtherParams) (meta : option EdgeMetadata)
  : EdgeSpendInfo :=
  {| spendTargets :=
       [ {| target_publicAddress := publicAddress;
            target_nativeAmount := nativeAmount |} ];
     otherParams := params;
     metadata := meta |}.

(** What [stakeRequest] has learnt once the deposit quote is in. *)
Record DepositQuote : Type := {
  quote_primaryAddress : string;
  quote_addressBalance : BigNum;
  quote_poolAddress : string;
  quote_slippageNativeAmount : BigNum
}.

(** [stakeRequest], from [updateInboundAddresses] to [slippageNativeAmount]:
    the inbound addresses, the primary address, the Thorchain quote and the
    slippage. *)
Definition fetchDepositQuote (wallet : EdgeCurrencyWallet)
  (currencyCode : string) (thorAmount : BigNum) : Prog DepositQuote :=
  updateInboundAddresses ;;
  let mainnetCode := mainnetCodeOf (currencyInfo_pluginId (currencyInfo wallet)) in
  pa <- getPrimaryAddress wallet currencyCode ;;
  let primaryAddress := fst pa in
  let addressBalance := snd pa in
  let asset := mainnetCode ++ "." ++ mainnetCode in
  let path :=
    "/thorchain/quote/saver/deposit?asset=" ++ asset ++ "&address="
    ++ primaryAddress ++ "&amount=" ++ numeral thorAmount in
  g <- getGlobals ;;
  quoteDeposit <-
    perform (CallCleanMultiFetch (thornodeServers g) path)
      (cleanMultiFetch env (thornodeServers g) path) ;;
  let poolAddress := inbound_address quoteDeposit in
  let expectedAmountOut := expected_amount_out quoteDeposit in
  let slippageThorAmount := biggystring.sub thorAmount expectedAmountOut in
  slippageDisplayAmount <-
    divOrThrow slippageThorAmount THOR_LIMIT_UNITS DIVIDE_PRECISION ;;
  slippageNativeAmount <-
    perform (CallDenominationToNative slippageDisplayAmount currencyCode)
      (denominationToNative wallet slippageDisplayAmount currencyCode) ;;
  ret {| quote_primaryAddress := primaryAddress;
         quote_addressBalance := addressBalance;
         quote_poolAddress := poolAddress;
         quote_slippageNativeAmount := slippageNativeAmount |}.

(** [stakeRequest], from [let needsFundingPrimary = false] to the end of
    [if (needsFundingPrimary)]: the result is the pair
    [(needsFundingPrimary, networkFee)]. *)
Definition estimateNetworkFee (wallet : EdgeCurrencyWallet)
  (walletBalance nativeAmount : BigNum) (currencyCode : string)
  (q : DepositQuote) : Prog (bool * BigNum) :=
  let primaryAddress := quote_primaryAddress q in
  estimate <-
    (if biggystring.lt (quote_addressBalance q) nativeAmount then
       ret (true, 0%Q)
     else
       try_catch
         (estimateTx <-
            callMakeSpend wallet
              (spendTo (quote_poolAddress q) nativeAmount
                 (Some (stakeSpendParams primaryAddress)) None) ;;
          ret (false, networkFee estimateTx))
         (fun e =>
            match e with
            | InsufficientFundsError _ => ret (true, 0%Q)
            | _ => ret (false, 0%Q)
            end)) ;;
  let needsFundingPrimary := fst estimate in
  if needsFundingPrimary then
    estimateTx <-
      callMakeSpend wallet (spendTo primaryAddress nativeAmount None None) ;;
    let networkFee := networkFee estimateTx in
    let remainingBalance :=
      biggystring.sub
        (biggystring.sub walletBalance (biggystring.mul networkFee 2))
        nativeAmount in
    if biggystring.lt remainingBalance 0 then
      throw (InsufficientFundsError currencyCode)
    else ret (true, networkFee)
  else ret estimate.

(** The [approve] closure of the quote returned by [stakeRequest]. *)
Definition approveStake (wallet : EdgeCurrencyWallet) (nativeAmount : BigNum)
  (q : DepositQuote) (needsFundingPrimary : bool) (networkFee : BigNum)
  : Prog unit :=
  let primaryAddress := quote_primaryAddress q in
  (if needsFundingPrimary then
     tx <-
       callMakeSpend wallet
         (spendTo primaryAddress (biggystring.add networkFee nativeAmount)
            (Some {| outputSort := None;
                     utxoSourceAddress := None;
                     forceChangeAddress := Some primaryAddress |})
            (Some {| metadata_name := "Thorchain Savers";
                     metadata_category := "Expense:Network Fee" |})) ;;
     signBroadcastSave wallet tx
   else ret tt) ;;
  tx <-
    callMakeSpend wallet
      (spendTo (quote_poolAddress q) nativeAmount
         (Some (stakeSpendParams primaryAddress))
         (Some {| metadata_name := "Thorchain Savers";
                  metadata_category := "Transfer:Staking" |})) ;;
  signBroadcastSave wallet tx.

Definition stakeRequest (request : ChangeQuoteRequest) (policy : StakePolicy)
  : Prog ChangeQuote :=
  let wallet := request_wallet request in
  let nativeAmount := request_nativeAmount request in
  let currencyCode := request_currencyCode request in
  let pluginId := currencyInfo_pluginId (currencyInfo wallet) in
  let policyCurrencyInfo := policyCurrencyInfos !! pluginId in
  let walletBalance := balances wallet !! currencyCode in
  match policyCurrencyInfo with
  | None =>
      throw (TypeError "Cannot destructure property 'minAmount' of undefined")
  | Some policyCurrencyInfo =>
  let minStakeAmount :=
    biggystring.add (minAmount policyCurrencyInfo)
      TC_SAVERS_WITHDRAWAL_SCALE_UNITS in
  exchangeAmount <-
    perform (CallNativeToDenomination nativeAmount currencyCode)
      (nativeToDenomination wallet nativeAmount currencyCode) ;;
  let thorAmount :=
    biggystring.toFixed (biggystring.mul exchangeAmount THOR_LIMIT_UNITS) 0 0 in
  if biggystring.lt nativeAmount minStakeAmount then
    throw (JsError ("Must stake at least " ++ numeral exchangeAmount ++ " "
                    ++ currencyCode))
  else
  match walletBalance with
  | None => throw (TypeError "biggystring: undefined is not a numeral")
  | Some walletBalance =>
  if biggystring.lt walletBalance nativeAmount then
    throw (InsufficientFundsError currencyCode)
  else
  q <- fetchDepositQuote wallet currencyCode thorAmount ;;
  estimate <- estimateNetworkFee wallet walletBalance nativeAmount currencyCode q ;;
  let needsFundingPrimary := fst estimate in
  let networkFee := snd estimate in
  let totalFee :=
    biggystring.add (quote_slippageNativeAmount q)
      (if needsFundingPrimary then biggystring.mul networkFee 2
       else networkFee) in
  ret
    {| allocations :=
         [ {| allocationType := "stake";
              allocation_pluginId := pluginId;
              allocation_currencyCode := currencyCode;
              allocation_nativeAmount := nativeAmount |};
           {| allocationType := "fee";
              allocation_pluginId := pluginId;
              allocation_currencyCode := currencyCode;
              allocation_nativeAmount := biggystring.toFixed totalFee 0 0 |} ];
       approve := approveStake wallet nativeAmount q needsFundingPrimary networkFee |}
  end
  end.

Definition unstakeRequest (request : ChangeQuoteRequest)
  (policy : StakePolicy) : Prog ChangeQuote :=
  match stakeAssets policy with
  | [] => throw (TypeError "Cannot destructure property 'pluginId' of undefined")
  | asset0 :: _ =>
      ret {| allocations :=
               [ {| allocationType := "unstake";
                    allocation_pluginId := asset_pluginId asset0;
                    allocation_currencyCode := asset_currencyCode asset0;
                    allocation_nativeAmount := 0 |} ];
             approve := ret tt |}
  end.

(** [changeQuoteFuncs[action]]: the table has no entry for [unstakeExact]. *)
Definition changeQuoteFuncs (a : StakeAction)
  : option (ChangeQuoteRequest -> StakePolicy -> Prog ChangeQuote) :=
  match a with
  | stake => Some stakeRequest
  | unstake => Some unstakeRequest
  | claim => Some unstakeRequest
  | unstakeExact => None
  end.

Definition fetchChangeQuote (request : ChangeQuoteRequest) : Prog ChangeQuote :=
  let wallet := request_wallet request in
  let currencyCode := request_currencyCode request in
  policy <- getPolicyFromId (request_stakePolicyId request) ;;
  match stakeAssets policy with
  | [] => throw (TypeError "Cannot destructure property 'pluginId' of undefined")
  | asset0 :: _ =>
      let pluginId := asset_pluginId asset0 in
      let policyCurrencyCode := asset_currencyCode asset0 in
      if negb (String.eqb currencyCode policyCurrencyCode) then
        throw (JsError "Currency code mismatch between request and policy")
      else if negb (String.eqb pluginId
                      (currencyInfo_pluginId (currencyInfo wallet))) then
        throw (JsError "pluginId mismatch between request and policy")
      else if negb (String.eqb currencyCode
                      (currencyInfo_currencyCode (currencyInfo wallet))) then
        throw (JsError "Only mainnet coins supported for staking")
      else
        match changeQuoteFuncs (action request) with
        | Some f => f request policy
        | None => throw (TypeError "changeQuoteFuncs[action] is not a function")
        end
  end.

(** [Promise.all] of the two fetches: both are started; the first rejection
    in the order of the array is the one reported here. *)
Definition fetchSaversAndPools (asset : string) : Prog (Response * Response) :=
  g <- getGlobals ;;
  let saversPath := "/thorchain/pool/" ++ asset ++ "/savers" in
  fun w =>
    let w' :=
      {| globals := globals w;
         calls :=
           calls w
           ++ [ CallFetchWaterfall (thornodeServers g) saversPath;
                CallFetchWaterfall (midgardServers g) "/v2/pools" ] |} in
    match fetchWaterfall env (thornodeServers g) saversPath,
          fetchWaterfall env (midgardServers g) "/v2/pools" with
    | Ok saversResponse, Ok poolsResponse =>
        (Ok (saversResponse, poolsResponse), w')
    | Throw e, _ => (Throw e, w')
    | Ok _, Throw e => (Throw e, w')
    end.

(** What [fetchStakePosition] has fetched before it looks for the saver and
    the pool. *)
Record PositionData : Type := {
  data_pluginId : string;
  data_currencyCode : string;
  data_asset : string;
  data_primaryAddress : string;
  data_savers : list Saver;
  data_pools : list Pool
}.

(** [fetchStakePosition], up to [const pools = asPools(poolsJson)]. *)
Definition fetchPositionData (request : StakePositionRequest)
  : Prog PositionData :=
  updateInboundAddresses ;;
  let wallet := position_wallet request in
  policy <- getPolicyFromId (position_stakePolicyId request) ;;
  match stakeAssets policy with
  | [] => throw (TypeError "Cannot destructure property 'pluginId' of undefined")
  | asset0 :: _ =>
  let pluginId := asset_pluginId asset0 in
  let currencyCode := asset_currencyCode asset0 in
  let mainnetCode := mainnetCodeOf pluginId in
  let asset := mainnetCode ++ "." ++ currencyCode in
  pa <- getPrimaryAddress wallet currencyCode ;;
  let primaryAddress := fst pa in
  responses <- fetchSaversAndPools asset ;;
  let saversResponse := fst responses in
  let poolsResponse := snd responses in
  savers <-
    (if negb (ok saversResponse) then
       responseText <- liftResult (text saversResponse) ;;
       throw (JsError ("Thorchain could not fetch /pool/savers: " ++ responseText))
     else
       saversJson <- liftResult (json saversResponse) ;;
       liftResult (asSavers saversJson)) ;;
  pools <-
    (if negb (ok poolsResponse) then
       responseText <- liftResult (text poolsResponse) ;;
       throw (JsError ("Thorchain could not fetch /v2/pools: " ++ responseText))
     else
       poolsJson <- liftResult (json poolsResponse) ;;
       liftResult (asPools poolsJson)) ;;
  ret {| data_pluginId := pluginId;
         data_currencyCode := currencyCode;
         data_asset := asset;
         data_primaryAddress := primaryAddress;
         data_savers := savers;
         data_pools := pools |}
  end.

Definition findSaver (primaryAddress : string) (savers : list Saver)
  : option Saver :=
  List.find
    (fun s => String.eqb (toLowerCase (asset_address s))
                (toLowerCase primaryAddress)) savers.

Definition findPool (asset : string) (pools : list Pool) : option Pool :=
  List.find (fun p => String.eqb (pool_asset p) asset) pools.

(** [redeemableValue] of a saver in a pool. *)
Definition redeemableValue (saver : Saver) (pool : Pool) : option BigNum :=
  biggystring.div (biggystring.mul (units saver) (saversDepth pool))
    (saversUnits pool) DIVIDE_PRECISION.

(** [fetchStakePosition], from [let stakedAmount = '0'] to the end of
    [if (saver != null && pool != null)]: the result is the pair
    [(stakedAmount, earnedAmount)]. *)
Definition positionAmounts (wallet : EdgeCurrencyWallet)
  (currencyCode : string) (saver : option Saver) (pool : option Pool)
  : Prog (BigNum * BigNum) :=
  match saver, pool with
  | Some saver, Some pool =>
      let assetDepositValue := asset_deposit_value saver in
      let stakedAmount := assetDepositValue in
      redeemableValue <-
        match redeemableValue saver pool with
        | Some v => ret v
        | None => throw (JsError "Assertion failed")
        end ;;
      let earnedAmount := biggystring.sub redeemableValue stakedAmount in
      stakedAmount <- divOrThrow stakedAmount THOR_LIMIT_UNITS DIVIDE_PRECISION ;;
      earnedAmount <- divOrThrow earnedAmount THOR_LIMIT_UNITS DIVIDE_PRECISION ;;
      stakedAmount <-
        perform (CallDenominationToNative stakedAmount currencyCode)
          (denominationToNative wallet stakedAmount currencyCode) ;;
      earnedAmount <-
        perform (CallDenominationToNative earnedAmount currencyCode)
          (denominationToNative wallet earnedAmount currencyCode) ;;
      let stakedAmount := biggystring.toFixed stakedAmount 0 0 in
      let earnedAmount := biggystring.toFixed earnedAmount 0 0 in
      let earnedAmount := biggystring.max earnedAmount 0 in
      ret (stakedAmount, earnedAmount)
  | _, _ => ret (0%Q, 0%Q)
  end.

Definition fetchStakePosition (request : StakePositionRequest)
  : Prog StakePosition :=
  d <- fetchPositionData request ;;
  let pluginId := data_pluginId d in
  let currencyCode := data_currencyCode d in
  let saver := findSaver (data_primaryAddress d) (data_savers d) in
  let pool := findPool (data_asset d) (data_pools d) in
  amounts <- positionAmounts (position_wallet request) currencyCode saver pool ;;
  ret
    {| position_allocations :=
         [ {| position_pluginId := pluginId;
              position_currencyCode := currencyCode;
              position_allocationType := "staked";
              position_nativeAmount := fst amounts |};
           {| position_pluginId := pluginId;
              position_currencyCode := currencyCode;
              position_allocationType := "earned";
              position_nativeAmount := snd amounts |} ];
       canStake := true;
       canUnstake := true;
       canClaim := true |}.

(** The start of [makeTcSaversPlugin]: the [apy] values are refreshed, and
    every failure on the way is only logged.  The instance it returns is made
    of [fetchChangeQuote] and [fetchStakePosition] above. *)
Definition makeTcSaversPlugin : Prog unit :=
  fetchResponse <-
    try_catch
      (res <- perform (CallFetchInfo "v1/apyValues") (fetchInfo env "v1/apyValues") ;;
       if negb (ok res) then
         responseText <- liftResult (text res) ;;
         throw (JsError ("Fetch APY invalid response: " ++ responseText))
       else ret (Some res))
      (fun err =>
         perform (CallConsole ("Fetch APY failed: " ++ message_of err)) (Ok tt) ;;
         ret None) ;;
  match fetchResponse with
  | Some fetchResponse =>
      try_catch
        (fetchResponseJson <- liftResult (json fetchResponse) ;;
         infoServerResponse <- liftResult (asInfoServerResponse fetchResponseJson) ;;
         updatePolicyApys infoServerResponse)
        (fun err =>
           perform (CallConsole ("Parsing Fetch APY failed: " ++ message_of err))
             (Ok tt))
  | None => ret tt
  end.

End TcSavers.

(** ** Sample data *)

Definition initialWorld : World :=
  {| globals := initialGlobals; calls := [] |}.

(** A wallet whose display unit is 10^8 native units, whose receive address
    holds [addressBalance] and whose spends cost [fee]. *)
Definition sampleWallet (plugin code : string)
  (balance addressBalance fee : BigNum) : EdgeCurrencyWallet :=
  {| currencyInfo :=
       {| currencyInfo_pluginId := plugin; currencyInfo_currencyCode := code |};
     balances := {[ code := balance ]};
     nativeToDenomination := fun x _ => Ok (x / 100000000)%Q;
     denominationToNative := fun x _ => Ok (x * 100000000)%Q;
     getReceiveAddress := fun _ =>
       Ok {| publicAddress := "bc1qSample";
             nativeBalance := Some addressBalance;
             segwitAddress := None;
             segwitNativeBalance := None |};
     makeSpend := fun _ => Ok {| txid := "estimate"; networkFee := fee |};
     signTx := fun tx => Ok tx;
     broadcastTx := fun tx => Ok tx;
     saveTx := fun _ => Ok tt |}.

Definition okResponse (body : Json) : Response :=
  {| ok := true; text := Ok ""; json := Ok body |}.

Definition sampleSaver : Saver :=
  {| saver_asset := "BTC.BTC";
     asset_address := "BC1QSAMPLE";
     last_add_height := 1;
     units := 1000;
     asset_deposit_value := 1200 |}.

Definition samplePool : Pool :=
  {| pool_asset := "BTC.BTC";
     status := "available";
     assetPrice := 1;
     assetPriceUSD := 1;
     assetDepth := 1;
     saversDepth := 5000;
     saversUnits := 5000;
     runeDepth := 1 |}.

Definition sampleEnv : Env :=
  {| dateNow := 1700000000000;
     fetchInfo := fun _ =>
       Ok (okResponse
             (JsonExchangeInfo
                {| info_midgardServers := ["https://midgard.sample"];
                   info_thornodeServers := None;
                   info_nineRealmsServers := None;
                   info_thorSwapServers := None |}));
     fetchWaterfall := fun _ path =>
       if String.eqb path "v2/thorchain/inbound_addresses"
       then Ok (okResponse (JsonInboundAddresses []))
       else if String.eqb path "/v2/pools"
       then Ok (okResponse (JsonPools [samplePool]))
       else Ok (okResponse (JsonSavers [sampleSaver]));
     cleanMultiFetch := fun _ _ =>
       Ok {| expected_amount_out := 24000; inbound_address := "bc1qPool" |} |}.

Definition sampleRequest (a : StakeAction) (policyId code : string)
  (amount : BigNum) (wallet : EdgeCurrencyWallet) : ChangeQuoteRequest :=
  {| action := a;
     request_stakePolicyId := policyId;
     request_currencyCode := code;
     request_nativeAmount := amount;
     request_wallet := wallet |}.

Definition btcPolicyId : string := "tcsavers/bitcoin:btc=bitcoin:btc".


(** A wallet whose conversion to native units never turns a non-positive
    amount into a positive one (it multiplies by a positive number of native
    units per display unit). *)
Definition keeps_sign (wallet : EdgeCurrencyWallet) : Prop :=
  forall (x : BigNum) (code : string) (y : BigNum),
    denominationToNative wallet x code = Ok y -> (x <= 0)%Q -> (y <= 0)%Q.

Definition samplePositionRequest (policyId : string) : StakePositionRequest :=
  {| position_stakePolicyId := policyId;
     position_wallet := sampleWallet "bitcoin" "BTC" 40000 0 3000 |}.

Definition ltcPolicyId : string := "tcsavers/litecoin:ltc=litecoin:ltc".

(** Capabilities that answer every balance lookup with [balance]. *)
Definition sampleCapabilities (balance : BigNum) : CheckerCapabilities :=
  {| balanceOf := fun _ _ _ => Ok balance;
     rateOf := fun _ => Ok 1%Q;
     confirmationsOf := fun _ _ => Ok 0%nat;
     eventSignaled := fun _ => Ok false;
     leafDelay := fun _ => 15000 |}.

(** ** Footprints of a run

    A relation between the world before and the world after a run that every
    run of a program respects, whether it returns or throws. *)
Definition respects {A} (R : World -> World -> Prop) (p : Prog A) : Prop :=
  forall w r w', p w = (r, w') -> R w w'.

(** The calls of the run all satisfy [P]. *)
Definition calls_only (P : Call -> bool) (w w' : World) : Prop :=
  exists new, calls w' = (calls w ++ new)%list /\ forallb P new = true.

(** The run leaves the [policies] array as it was. *)
Definition same_policies (w w' : World) : Prop :=
  policies (globals w') = policies (globals w).

(** The run assigns no module-level variable. *)
Definition same_globals (w w' : World) : Prop := globals w' = globals w.

Definition is_signing_call (c : Call) : bool :=
  match c with
  | CallSignTx _ | CallBroadcastTx _ | CallSaveTx _ => true
  | _ => false
  end.

Definition is_broadcast (c : Call) : bool :=
  match c with CallBroadcastTx _ => true | _ => false end.

Definition is_fetchInfo (c : Call) : bool :=
  match c with CallFetchInfo _ | CallConsole _ | CallDateNow => true | _ => false end.

(** The policy without its [apy]. *)
Definition policy_shape (policy : StakePolicy)
  : string * option StakeProviderInfo * list AssetId * list AssetId :=
  (stakePolicyId policy, policy_stakeProviderInfo policy,
   rewardAssets policy, stakeAssets policy).

(** The inbound addresses are cached and younger than the refresh period. *)
Definition inbound_fresh (now : Z) (g : Globals) : Prop :=
  inboundAddresses g <> None
  /\ (now - inboundAddressesLastUpdate g <= INBOUND_ADDRESSES_UPDATE_FREQ_MS)%Z.

Definition exchangeInfo_fresh (now : Z) (g : Globals) : Prop :=
  exchangeInfo g <> None
  /\ (now - exchangeInfoLastUpdate g <= EXCHANGE_INFO_UPDATE_FREQ_MS)%Z.

(** The kind of a call, without its arguments. *)
Inductive CallKind : Type :=
| KDateNow | KConsole | KFetchInfo | KFetchWaterfall | KCleanMultiFetch
| KNativeToDenomination | KDenominationToNative | KGetReceiveAddress
| KMakeSpend | KSignTx | KBroadcastTx | KSaveTx.

Definition call_kind (c : Call) : CallKind :=
  match c with
  | CallDateNow => KDateNow
  | CallConsole _ => KConsole
  | CallFetchInfo _ => KFetchInfo
  | CallFetchWaterfall _ _ => KFetchWaterfall
  | CallCleanMultiFetch _ _ => KCleanMultiFetch
  | CallNativeToDenomination _ _ => KNativeToDenomination
  | CallDenominationToNative _ _ => KDenominationToNative
  | CallGetReceiveAddress _ => KGetReceiveAddress
  | CallMakeSpend _ => KMakeSpend
  | CallSignTx _ => KSignTx
  | CallBroadcastTx _ => KBroadcastTx
  | CallSaveTx _ => KSaveTx
  end.

(** The cached answers and server lists are the same in both worlds. *)
Definition same_caches (w w' : World) : Prop :=
  exchangeInfo (globals w') = exchangeInfo (globals w)
  /\ exchangeInfoLastUpdate (globals w') = exchangeInfoLastUpdate (globals w)
  /\ inboundAddresses (globals w') = inboundAddresses (globals w)
  /\ midgardServers (globals w') = midgardServers (globals w)
  /\ thornodeServers (globals w') = thornodeServers (globals w)
  /\ inboundAddressesLastUpdate (globals w')
     = inboundAddressesLastUpdate (globals w).

(** The policies are the same up to their [apy]. *)
Definition same_shapes (w w' : World) : Prop :=
  map policy_shape (policies (globals w'))
  = map policy_shape (policies (globals w)).

(** An environment in which every [fetchWaterfall] fails. *)
Definition failingInboundEnv : Env :=
  {| dateNow := dateNow sampleEnv;
     fetchInfo := fetchInfo sampleEnv;
     fetchWaterfall := fun _ _ => Throw (JsError "Network request failed");
     cleanMultiFetch := cleanMultiFetch sampleEnv |}.

(** Calls that neither sign, broadcast nor save a transaction. *)
Definition not_signing (c : Call) : bool := negb (is_signing_call c).

(** Calls that neither spend from the wallet nor ask Thorchain for a quote. *)
Definition read_only_call (c : Call) : bool :=
  negb (is_wallet_spend c) && negb (is_quote_fetch c).

(** A wallet as [sampleWallet] whose [makeSpend] always fails with [e]. *)
Definition failingSpendWallet (e : Error) (balance addressBalance : BigNum)
  : EdgeCurrencyWallet :=
  let wallet := sampleWallet "bitcoin" "BTC" balance addressBalance 0 in
  {| currencyInfo := currencyInfo wallet;
     balances := balances wallet;
     nativeToDenomination := nativeToDenomination wallet;
     denominationToNative := denominationToNative wallet;
     getReceiveAddress := getReceiveAddress wallet;
     makeSpend := fun _ => Throw e;
     signTx := signTx wallet;
     broadcastTx := broadcastTx wallet;
     saveTx := saveTx wallet |}.

Definition sampleQuote (addressBalance : BigNum) : DepositQuote :=
  {| quote_primaryAddress := "bc1qSample";
     quote_addressBalance := addressBalance;
     quote_poolAddress := "bc1qPool";
     quote_slippageNativeAmount := 1000 |}.

(** The wallet calls of one spend, and of a whole [approve]. *)
Definition spend_round : list CallKind :=
  [KMakeSpend; KSignTx; KBroadcastTx; KSaveTx].

Definition approve_rounds (needsFundingPrimary : bool) : list CallKind :=
  ((if needsFundingPrimary then spend_round else []) ++ spend_round)%list.

(** Strings of ASCII characters only.  On these [toLowerCase] above is
    [String.prototype.toLowerCase]: both fold exactly the letters A to Z.
    (Addresses are base58, bech32 or hexadecimal text.) *)
Fixpoint ascii_only (s : string) : bool :=
  match s with
  | EmptyString => true
  | String c s' => (nat_of_ascii c <? 128)%nat && ascii_only s'
  end.

(** An environment as [sampleEnv] whose only saver has another address. *)
Definition strangerSaver : Saver :=
  {| saver_asset := "BTC.BTC";
     asset_address := "bc1qStranger";
     last_add_height := 1;
     units := 1000;
     asset_deposit_value := 1200 |}.

Definition strangerEnv : Env :=
  {| dateNow := dateNow sampleEnv;
     fetchInfo := fetchInfo sampleEnv;
     fetchWaterfall := fun servers path =>
       if String.eqb path "v2/thorchain/inbound_addresses"
       then fetchWaterfall sampleEnv servers path
       else if String.eqb path "/v2/pools"
       then fetchWaterfall sampleEnv servers path
       else Ok (okResponse (JsonSavers [strangerSaver]));
     cleanMultiFetch := cleanMultiFetch sampleEnv |}.

(** Calls to [fetchInfo] and to the console, and nothing else. *)
Definition is_fetchInfo_or_console (c : Call) : bool :=
  match c with CallFetchInfo _ | CallConsole _ => true | _ => false end.

(** The two spends of [approve]: the transfer that funds the primary
    address, and the deposit to the pool. *)
Definition fundingSpend (q : DepositQuote) (nativeAmount networkFee : BigNum)
  : EdgeSpendInfo :=
  spendTo (quote_primaryAddress q) (biggystring.add networkFee nativeAmount)
    (Some {| outputSort := None;
             utxoSourceAddress := None;
             forceChangeAddress := Some (quote_primaryAddress q) |})
    (Some {| metadata_name := "Thorchain Savers";
             metadata_category := "Expense:Network Fee" |}).

Definition poolSpend (q : DepositQuote) (nativeAmount : BigNum)
  : EdgeSpendInfo :=
  spendTo (quote_poolAddress q) nativeAmount
    (Some (stakeSpendParams (quote_primaryAddress q)))
    (Some {| metadata_name := "Thorchain Savers";
             metadata_category := "Transfer:Staking" |}).

(** The spends [approve] is to make, in order. *)
Definition approve_spends (needsFundingPrimary : bool) (q : DepositQuote)
  (nativeAmount networkFee : BigNum) : list EdgeSpendInfo :=
  ((if needsFundingPrimary then [fundingSpend q nativeAmount networkFee]
    else [])
   ++ [poolSpend q nativeAmount])%list.

(** The arguments of the [makeSpend] calls of a run, in order. *)
Fixpoint spends_of (l : list Call) : list EdgeSpendInfo :=
  match l with
  | [] => []
  | CallMakeSpend info :: l' => info :: spends_of l'
  | _ :: l' => spends_of l'
  end.

(** [c'] was called on what the wallet answered to [c]: the transaction
    signed is the one [makeSpend] returned, the one broadcast is the signed
    one, the one saved is the broadcast one, and a further spend is only
    built once the save has succeeded. *)
Definition follows (wallet : EdgeCurrencyWallet) (c c' : Call) : Prop :=
  match c, c' with
  | CallMakeSpend info, CallSignTx tx => makeSpend wallet info = Ok tx
  | CallSignTx tx, CallBroadcastTx signed => signTx wallet tx = Ok signed
  | CallBroadcastTx signed, CallSaveTx sent => broadcastTx wallet signed = Ok sent
  | CallSaveTx sent, CallMakeSpend _ => saveTx wallet sent = Ok tt
  | _, _ => False
  end.

(** Every call of the run but the first follows the call before it. *)
Fixpoint linked (wallet : EdgeCurrencyWallet) (l : list Call) : Prop :=
  match l with
  | [] => True
  | c :: rest =>
      match rest with
      | [] => True
      | c' :: _ => follows wallet c c' /\ linked wallet rest
      end
  end.

(** * Properties *)

(** ** The monad *)

Lemma bind_ok {A B} (p : Prog A) (k : A -> Prog B) (w w' : World) (a : A) :
  p w = (Ok a, w') -> bind p k w = k a w'.
Proof. intros H. unfold bind. now rewrite H. Qed.

Lemma bind_throw {A B} (p : Prog A) (k : A -> Prog B) (w w' : World)
  (e : Error) :
  p w = (Throw e, w') -> bind p k w = (Throw e, w').
Proof. intros H. unfold bind. now rewrite H. Qed.

Lemma bind_inv_ok {A B} (p : Prog A) (k : A -> Prog B) (w w' : World) (b : B) :
  bind p k w = (Ok b, w') ->
  exists a w1, p w = (Ok a, w1) /\ k a w1 = (Ok b, w').
Proof.
  unfold bind. destruct (p w) as [[a|e] w1]; [eauto | discriminate].
Qed.

(** ** Numerals *)

Example truncate_pos : biggystring.truncate 0 (7 # 2)%Q = 3%Q.
Proof. reflexivity. Qed.

Example truncate_neg : biggystring.truncate 0 (-7 # 2)%Q = (-3)%Q.
Proof. reflexivity. Qed.

Example div_precision : biggystring.div 1 3 2 = Some (33 # 100)%Q.
Proof. reflexivity. Qed.

Example div_by_zero : biggystring.div 1 0 18 = None.
Proof. reflexivity. Qed.

Example max_caps : biggystring.max (-3) 0 = 0%Q.
Proof. reflexivity. Qed.

Lemma lt_spec (x y : BigNum) : biggystring.lt x y = true <-> (x < y)%Q.
Proof.
  unfold biggystring.lt. rewrite Qlt_alt.
  destruct (x ?= y)%Q; split; congruence.
Qed.

Lemma gt_spec (x y : BigNum) : biggystring.gt x y = true <-> (y < x)%Q.
Proof.
  unfold biggystring.gt.
  change (y < x)%Q with (x > y)%Q. rewrite Qgt_alt.
  destruct (x ?= y)%Q; split; congruence.
Qed.

Lemma lt_false (x y : BigNum) : biggystring.lt x y = false <-> (y <= x)%Q.
Proof.
  rewrite <- not_true_iff_false, lt_spec. split.
  - apply Qnot_lt_le.
  - apply Qle_not_lt.
Qed.

Lemma max_zero_nonneg (x : BigNum) : (0 <= biggystring.max x 0)%Q.
Proof.
  unfold biggystring.max.
  destruct (biggystring.gt x 0) eqn:E.
  - apply Qlt_le_weak. now apply gt_spec.
  - apply Qle_refl.
Qed.

Lemma max_zero_nonpos (x : BigNum) : (x <= 0)%Q -> biggystring.max x 0 = 0%Q.
Proof.
  intros Hx. unfold biggystring.max.
  destruct (biggystring.gt x 0) eqn:E; [|reflexivity].
  apply gt_spec in E. exfalso. revert E. now apply Qle_not_lt.
Qed.

Lemma truncate_nonpos (p : nat) (x : BigNum) :
  (x <= 0)%Q -> (biggystring.truncate p x <= 0)%Q.
Proof.
  intros Hx. unfold biggystring.truncate, Qle in *. simpl in *.
  rewrite Z.mul_1_r in *.
  assert (Hs : (0 < 10 ^ Z.of_nat p)%Z) by (apply Z.pow_pos_nonneg; lia).
  assert (Hn : (Qnum x * 10 ^ Z.of_nat p <= 0)%Z) by nia.
  assert (Hq : (0 <= Z.quot (- (Qnum x * 10 ^ Z.of_nat p)) (Z.pos (Qden x)))%Z)
    by (apply Z.quot_pos; lia).
  rewrite Z.quot_opp_l in Hq by lia. lia.
Qed.

Lemma div_nonpos (x y : BigNum) (p : nat) (q : BigNum) :
  (x <= 0)%Q -> (0 < y)%Q -> biggystring.div x y p = Some q -> (q <= 0)%Q.
Proof.
  intros Hx Hy. unfold biggystring.div.
  destruct (Qeq_bool y 0); [discriminate|].
  intros [= <-]. apply truncate_nonpos.
  unfold Qdiv.
  apply Qle_trans with (0 * / y)%Q.
  - apply Qmult_le_compat_r; [assumption|].
    apply Qlt_le_weak. now apply Qinv_lt_0_compat.
  - rewrite Qmult_0_l. apply Qle_refl.
Qed.

(** ** Action operations *)

Lemma op_type_in_ActionOp_tags (op : ActionOp) : In (op_type op) ActionOp_tags.
Proof. destruct op; simpl; tauto. Qed.

Lemma ActionOp_tags_covered (tag : string) :
  In tag ActionOp_tags ->
  exists op, op_type op = tag.
Proof.
  simpl. intros H.
  repeat (destruct H as [<- | H]); try contradiction.
  - now exists (SeqActionOp []).
  - now exists (ParActionOp []).
  - now exists (BroadcastTxActionOp "" []).
  - now exists (WyreBuyActionOp "" "" None).
  - now exists (WyreSellActionOp "" "" "" None).
  - now exists (LoanBorrowActionOp "" "" "" None).
  - now exists (LoanDepositActionOp "" "" "" None).
  - now exists (LoanRepayActionOp "" "" "" None None).
  - now exists (LoanWithdrawActionOp "" "" "" None).
  - now exists (SwapActionOp AmountFrom None "" "" None "").
Qed.

Lemma composite_ops_wrap_children (op : ActionOp) :
  is_Some (op_actions op) <-> op_type op = "seq" \/ op_type op = "par".
Proof.
  destruct op; simpl; split; intros H;
    try (destruct H as [? H]; discriminate);
    try (destruct H; discriminate); eauto.
Qed.

Lemma op_type_ActionOpTypes_or_broadcast (op : ActionOp) :
  is_ActionOpType (op_type op) = true \/ op_type op = "broadcast-tx".
Proof. destruct op; simpl; auto. Qed.

(** C5: the variants of [ActionOp] are exactly [seq], [par] and the eight
    leaf operations, but the tag of a [broadcast-tx] operation is not a
    member of [ActionOpTypes]. *)
Theorem broadcast_tx_not_in_ActionOpTypes (pluginId : string)
  (rawTx : list Byte.byte) :
  is_ActionOpType (op_type (BroadcastTxActionOp pluginId rawTx)) = false.
Proof. reflexivity. Qed.

(** ** The effect checker *)




(** The two scenarios of the specification: above 1000, balances 999 and
    1001. *)
Example address_balance_999 :
  checkActionEffect (sampleCapabilities 999)
    (AddressBalanceEffect "addr" (Some 1000%Q) None "wallet" None)
  = Ok {| delay := 15000; isEffective := false; updatedEffect := None |}.
Proof. reflexivity. Qed.

Example address_balance_1001 :
  checkActionEffect (sampleCapabilities 1001)
    (AddressBalanceEffect "addr" (Some 1000%Q) None "wallet" None)
  = Ok {| delay := 15000; isEffective := true; updatedEffect := None |}.
Proof. reflexivity. Qed.

(** With both bounds the balance has to lie strictly between them. *)
Example address_balance_between :
  checkActionEffect (sampleCapabilities 1500)
    (AddressBalanceEffect "addr" (Some 1000%Q) (Some 2000%Q) "wallet" None)
  = Ok {| delay := 15000; isEffective := true; updatedEffect := None |}
  /\ checkActionEffect (sampleCapabilities 2000)
       (AddressBalanceEffect "addr" (Some 1000%Q) (Some 2000%Q) "wallet" None)
     = Ok {| delay := 15000; isEffective := false; updatedEffect := None |}.
Proof. split; reflexivity. Qed.

(** A [seq] effect is as effective as its active child, a [par] effect as
    all of its children that are not done. *)
Example check_seq_active_child :
  checkActionEffect (sampleCapabilities 1001)
    (SeqEffect 1
       [ Some (DoneEffect None None);
         Some (AddressBalanceEffect "addr" (Some 1000%Q) None "wallet" None) ])
  = Ok {| delay := 15000; isEffective := true; updatedEffect := None |}.
Proof. reflexivity. Qed.

Example check_par_children :
  checkActionEffect (sampleCapabilities 1001)
    (ParEffect
       [ Some (DoneEffect None None);
         Some (AddressBalanceEffect "addr" (Some 1000%Q) None "wallet" None);
         Some (AddressBalanceEffect "addr" None (Some 1000%Q) "wallet" None) ])
  = Ok {| delay := 15000; isEffective := false; updatedEffect := None |}.
Proof. reflexivity. Qed.

(** C3: for every [done] effect, [checkActionEffect] returns
    [isEffective = true], [delay = 0] and no [updatedEffect]; the stored
    effect is the same after the check, and checking it again gives the same
    result. *)
Theorem done_effect_check_idempotent (ctx : CheckerCapabilities)
  (error : option Error) (cancelled : option bool) :
  let e := DoneEffect error cancelled in
  let r := {| delay := 0; isEffective := true; updatedEffect := None |} in
  checkActionEffect ctx e = Ok r
  /\ storedEffectAfter e r = e
  /\ checkActionEffect ctx (storedEffectAfter e r) = Ok r.
Proof. repeat split. Qed.

(** ** [fetchChangeQuote]: validation *)

Lemma lookupPolicy_none (ps : list StakePolicy) (policyId : string) :
  Forall (fun policy => stakePolicyId policy <> policyId) ps ->
  lookupPolicy ps policyId = None.
Proof.
  unfold lookupPolicy. induction 1 as [|policy ps Hne _ IH]; simpl.
  - reflexivity.
  - destruct (String.eqb_spec (stakePolicyId policy) policyId); [contradiction|].
    exact IH.
Qed.

Lemma lookupPolicy_some (ps : list StakePolicy) (policyId : string)
  (policy : StakePolicy) :
  lookupPolicy ps policyId = Some policy ->
  In policy ps /\ stakePolicyId policy = policyId.
Proof.
  unfold lookupPolicy. intros H. apply find_some in H.
  destruct H as [Hin Heq]. split; [assumption|].
  now apply String.eqb_eq.
Qed.

Lemma getPolicyFromId_ok (w : World) (policyId : string) (policy : StakePolicy) :
  lookupPolicy (policies (globals w)) policyId = Some policy ->
  getPolicyFromId policyId w = (Ok policy, w).
Proof.
  intros H. unfold getPolicyFromId, bind, getGlobals. now rewrite H.
Qed.

Lemma eqb_neq_false (a b : string) : a <> b -> String.eqb a b = false.
Proof. intros H. now apply String.eqb_neq. Qed.

(** C6: when no policy has the requested id, or the requested currency code
    differs from the policy's stake asset, or the policy's plugin differs
    from the wallet's, or the requested currency code differs from the
    wallet's main currency, [fetchChangeQuote] throws an [Error] and the
    world is as it was: no call has been made and no variable assigned. *)
Theorem fetchChangeQuote_validation (env : Env) (request : ChangeQuoteRequest)
  (w : World) :
  let policyId := request_stakePolicyId request in
  let currencyCode := request_currencyCode request in
  let info := currencyInfo (request_wallet request) in
  (Forall (fun policy => stakePolicyId policy <> policyId) (policies (globals w))
   \/ exists policy asset0 rest,
        lookupPolicy (policies (globals w)) policyId = Some policy
        /\ stakeAssets policy = asset0 :: rest
        /\ (currencyCode <> asset_currencyCode asset0
            \/ asset_pluginId asset0 <> currencyInfo_pluginId info
            \/ currencyCode <> currencyInfo_currencyCode info)) ->
  exists message,
    fetchChangeQuote env request w = (Throw (JsError message), w).
Proof.
  intros policyId currencyCode info H.
  unfold fetchChangeQuote, getPolicyFromId, bind, getGlobals.
  fold policyId currencyCode.
  destruct H as [Hnone | (policy & asset0 & rest & Hfind & Hassets & Hbad)].
  - rewrite (lookupPolicy_none _ _ Hnone). unfold throw. eauto.
  - rewrite Hfind. unfold ret. rewrite Hassets.
    destruct (String.eqb_spec currencyCode (asset_currencyCode asset0))
      as [Hcc|Hcc]; simpl; [|unfold throw; eauto].
    destruct (String.eqb_spec (asset_pluginId asset0)
                (currencyInfo_pluginId (currencyInfo (request_wallet request))))
      as [Hpl|Hpl]; simpl; [|unfold throw; eauto].
    destruct (String.eqb_spec currencyCode
                (currencyInfo_currencyCode (currencyInfo (request_wallet request))))
      as [Hwc|Hwc]; simpl; [|unfold throw; eauto].
    exfalso. destruct Hbad as [Hbad|[Hbad|Hbad]]; now apply Hbad.
Qed.

Lemma fetchChangeQuote_validation_witness :
  exists message,
    fetchChangeQuote sampleEnv
      (sampleRequest stake btcPolicyId "LTC" 25000
         (sampleWallet "bitcoin" "BTC" 40000 0 3000))
      initialWorld
    = (Throw (JsError message), initialWorld).
Proof.
  apply fetchChangeQuote_validation.
  right. do 3 eexists.
  split; [reflexivity|]. split; [reflexivity|].
  left. discriminate.
Defined.

(** The four validation errors, on sample requests. *)
Example validation_unknown_policy :
  fetchChangeQuote sampleEnv
    (sampleRequest stake "tcsavers/none" "BTC" 25000
       (sampleWallet "bitcoin" "BTC" 40000 0 3000)) initialWorld
  = (Throw (JsError "Cannot find policy tcsavers/none"), initialWorld).
Proof. reflexivity. Qed.

Example validation_currency_mismatch :
  fetchChangeQuote sampleEnv
    (sampleRequest unstake btcPolicyId "LTC" 25000
       (sampleWallet "bitcoin" "BTC" 40000 0 3000)) initialWorld
  = (Throw (JsError "Currency code mismatch between request and policy"),
     initialWorld).
Proof. reflexivity. Qed.

Example validation_plugin_mismatch :
  fetchChangeQuote sampleEnv
    (sampleRequest stake btcPolicyId "BTC" 25000
       (sampleWallet "litecoin" "LTC" 40000 0 3000)) initialWorld
  = (Throw (JsError "pluginId mismatch between request and policy"),
     initialWorld).
Proof. reflexivity. Qed.

Example validation_not_mainnet :
  fetchChangeQuote sampleEnv
    (sampleRequest stake btcPolicyId "BTC" 25000
       (sampleWallet "bitcoin" "TESTBTC" 40000 0 3000)) initialWorld
  = (Throw (JsError "Only mainnet coins supported for staking"), initialWorld).
Proof. reflexivity. Qed.

(** ** [stakeRequest]: the minimum amount *)

Example minimum_stake_bitcoin :
  (fun info => biggystring.add (minAmount info) TC_SAVERS_WITHDRAWAL_SCALE_UNITS)
    <$> policyCurrencyInfos !! "bitcoin" = Some 20000%Q.
Proof. reflexivity. Qed.

Example minimum_stake_ethereum :
  (fun info => biggystring.add (minAmount info) TC_SAVERS_WITHDRAWAL_SCALE_UNITS)
    <$> policyCurrencyInfos !! "ethereum" = Some 10000%Q.
Proof. reflexivity. Qed.

Example minimum_stake_dogecoin :
  (fun info => biggystring.add (minAmount info) TC_SAVERS_WITHDRAWAL_SCALE_UNITS)
    <$> policyCurrencyInfos !! "dogecoin" = Some 100010000%Q.
Proof. reflexivity. Qed.

(** C8: when [nativeAmount] is strictly below the chain's [minAmount] plus
    the 10000 withdrawal scale units, [stakeRequest] throws; the only call
    made before is the wallet's denomination conversion, so no Thorchain
    quote (and nothing else) has been fetched. *)
Theorem stakeRequest_below_minimum (env : Env) (request : ChangeQuoteRequest)
  (policy : StakePolicy) (info : PolicyCurrencyInfo) (w : World) :
  let wallet := request_wallet request in
  let nativeAmount := request_nativeAmount request in
  let currencyCode := request_currencyCode request in
  policyCurrencyInfos !! currencyInfo_pluginId (currencyInfo wallet) = Some info ->
  (nativeAmount < minAmount info + TC_SAVERS_WITHDRAWAL_SCALE_UNITS)%Q ->
  exists e w' newCalls,
    stakeRequest env request policy w = (Throw e, w')
    /\ globals w' = globals w
    /\ calls w' = (calls w ++ newCalls)%list
    /\ newCalls = [CallNativeToDenomination nativeAmount currencyCode]
    /\ existsb is_quote_fetch newCalls = false
    /\ existsb is_network_call newCalls = false.
Proof.
  intros wallet nativeAmount currencyCode Hinfo Hlt.
  unfold stakeRequest. fold wallet nativeAmount currencyCode.
  rewrite Hinfo. unfold bind, perform.
  destruct (nativeToDenomination wallet nativeAmount currencyCode)
    as [exchangeAmount|e].
  - apply lt_spec in Hlt. unfold biggystring.add. rewrite Hlt.
    unfold throw. do 3 eexists. repeat split; reflexivity.
  - do 3 eexists. repeat split; reflexivity.
Qed.

Lemma stakeRequest_below_minimum_witness :
  exists e w' newCalls,
    stakeRequest sampleEnv
      (sampleRequest stake btcPolicyId "BTC" 19999
         (sampleWallet "bitcoin" "BTC" 40000 0 3000))
      (tcPolicy btcPolicyId "bitcoin" "BTC") initialWorld
    = (Throw e, w')
    /\ globals w' = globals initialWorld
    /\ calls w' = (calls initialWorld ++ newCalls)%list
    /\ newCalls = [CallNativeToDenomination 19999 "BTC"]
    /\ existsb is_quote_fetch newCalls = false
    /\ existsb is_network_call newCalls = false.
Proof.
  apply (stakeRequest_below_minimum sampleEnv
           (sampleRequest stake btcPolicyId "BTC" 19999
              (sampleWallet "bitcoin" "BTC" 40000 0 3000))
           (tcPolicy btcPolicyId "bitcoin" "BTC") utxoInfo initialWorld).
  - reflexivity.
  - reflexivity.
Defined.

Example stake_19999_sats_rejected :
  fst (stakeRequest sampleEnv
         (sampleRequest stake btcPolicyId "BTC" 19999
            (sampleWallet "bitcoin" "BTC" 40000 0 3000))
         (tcPolicy btcPolicyId "bitcoin" "BTC") initialWorld)
  = Throw (JsError "Must stake at least 0.00019999 BTC").
Proof. reflexivity. Qed.

Example stake_9999_wei_rejected :
  fst (stakeRequest sampleEnv
         (sampleRequest stake "tcsavers/ethereum:eth=ethereum:eth" "ETH" 9999
            (sampleWallet "ethereum" "ETH" 40000 0 3000))
         (tcPolicy "tcsavers/ethereum:eth=ethereum:eth" "ethereum" "ETH")
         initialWorld)
  = Throw (JsError "Must stake at least 0.00009999 ETH").
Proof. reflexivity. Qed.

(** A wallet of a chain without an entry in [policyCurrencyInfos] is rejected
    even earlier. *)
Lemma stakeRequest_unknown_chain (env : Env) (request : ChangeQuoteRequest)
  (policy : StakePolicy) (w : World) :
  policyCurrencyInfos
    !! currencyInfo_pluginId (currencyInfo (request_wallet request)) = None ->
  exists e, stakeRequest env request policy w = (Throw e, w).
Proof.
  intros H. unfold stakeRequest. rewrite H. unfold throw. eauto.
Qed.

(** ** [fetchChangeQuote]: insufficient funds *)

Lemma estimateNetworkFee_insufficient (wallet : EdgeCurrencyWallet)
  (walletBalance nativeAmount : BigNum) (currencyCode : string)
  (q : DepositQuote) (fundingTx : EdgeTransaction) (w : World) :
  ((quote_addressBalance q < nativeAmount)%Q
   \/ exists c,
        makeSpend wallet
          (spendTo (quote_poolAddress q) nativeAmount
             (Some (stakeSpendParams (quote_primaryAddress q))) None)
        = Throw (InsufficientFundsError c)) ->
  makeSpend wallet (spendTo (quote_primaryAddress q) nativeAmount None None)
  = Ok fundingTx ->
  (walletBalance - networkFee fundingTx * 2 - nativeAmount < 0)%Q ->
  exists w',
    estimateNetworkFee wallet walletBalance nativeAmount currencyCode q w
    = (Throw (InsufficientFundsError currencyCode), w').
Proof.
  intros Hneeds Hfunding Hremaining.
  apply lt_spec in Hremaining.
  unfold estimateNetworkFee.
  match goal with
  | |- exists w', bind ?p ?k w = _ =>
      assert (HE : exists fee w1, p w = (Ok (true, fee), w1))
  end.
  { destruct (biggystring.lt (quote_addressBalance q) nativeAmount) eqn:Hlt.
    - unfold ret. eauto.
    - destruct Hneeds as [Hneeds | [c Hspend]].
      + apply lt_spec in Hneeds. congruence.
      + unfold try_catch, callMakeSpend, bind, perform.
        rewrite Hspend. unfold ret. eauto. }
  destruct HE as (fee & w1 & HE).
  rewrite (bind_ok _ _ _ _ _ HE). cbn [fst snd].
  erewrite bind_ok
    by (unfold callMakeSpend, perform; rewrite Hfunding; reflexivity).
  unfold biggystring.sub, biggystring.mul. rewrite Hremaining.
  unfold throw. eauto.
Qed.

(** C7, as amended: for a stake request that passes the validation of
    [fetchChangeQuote], on a chain with a minimum amount, whose
    [nativeAmount] is at least the minimum stake amount and converts to a
    display amount, [fetchChangeQuote] fails with [InsufficientFundsError]
    for the requested currency when [nativeAmount] exceeds the wallet balance,
    and also when the deposit quote is obtained, the primary address has to
    be funded and the balance left after twice the network fee and the
    amount is negative. *)
Theorem fetchChangeQuote_insufficient_funds (env : Env)
  (request : ChangeQuoteRequest) (w : World) (policy : StakePolicy)
  (asset0 : AssetId) (rest : list AssetId) (info : PolicyCurrencyInfo)
  (exchangeAmount walletBalance : BigNum) :
  let wallet := request_wallet request in
  let nativeAmount := request_nativeAmount request in
  let currencyCode := request_currencyCode request in
  let thorAmount :=
    biggystring.toFixed (biggystring.mul exchangeAmount THOR_LIMIT_UNITS) 0 0 in
  let w1 :=
    {| globals := globals w;
       calls := calls w ++ [CallNativeToDenomination nativeAmount currencyCode] |} in
  action request = stake ->
  lookupPolicy (policies (globals w)) (request_stakePolicyId request)
  = Some policy ->
  stakeAssets policy = asset0 :: rest ->
  currencyCode = asset_currencyCode asset0 ->
  asset_pluginId asset0 = currencyInfo_pluginId (currencyInfo wallet) ->
  currencyCode = currencyInfo_currencyCode (currencyInfo wallet) ->
  policyCurrencyInfos !! currencyInfo_pluginId (currencyInfo wallet) = Some info ->
  (minAmount info + TC_SAVERS_WITHDRAWAL_SCALE_UNITS <= nativeAmount)%Q ->
  nativeToDenomination wallet nativeAmount currencyCode = Ok exchangeAmount ->
  balances wallet !! currencyCode = Some walletBalance ->
  ((walletBalance < nativeAmount)%Q
   \/ exists q w2 fundingTx,
        fetchDepositQuote env wallet currencyCode thorAmount w1 = (Ok q, w2)
        /\ ((quote_addressBalance q < nativeAmount)%Q
            \/ exists c,
                 makeSpend wallet
                   (spendTo (quote_poolAddress q) nativeAmount
                      (Some (stakeSpendParams (quote_primaryAddress q))) None)
                 = Throw (InsufficientFundsError c))
        /\ makeSpend wallet
             (spendTo (quote_primaryAddress q) nativeAmount None None)
           = Ok fundingTx
        /\ (walletBalance - networkFee fundingTx * 2 - nativeAmount < 0)%Q) ->
  exists w',
    fetchChangeQuote env request w
    = (Throw (InsufficientFundsError currencyCode), w').
Proof.
  intros wallet nativeAmount currencyCode thorAmount w1
    Hstake Hfind Hassets Hcc Hplugin Hmain Hinfo Hmin Hconv Hbal Hcases.
  unfold fetchChangeQuote. fold wallet currencyCode.
  rewrite (bind_ok _ _ _ _ _ (getPolicyFromId_ok _ _ _ Hfind)).
  rewrite Hassets.
  rewrite <- Hcc, Hplugin, <- Hmain, !String.eqb_refl. cbn [negb].
  rewrite Hstake. cbn [changeQuoteFuncs].
  unfold stakeRequest. fold wallet nativeAmount currencyCode.
  rewrite Hinfo, Hbal.
  erewrite bind_ok by (unfold perform; rewrite Hconv; reflexivity).
  fold thorAmount w1.
  apply lt_false in Hmin. unfold biggystring.add. rewrite Hmin.
  destruct (biggystring.lt walletBalance nativeAmount) eqn:Hlt.
  - unfold throw. eauto.
  - destruct Hcases as [Hlow | (q & w2 & fundingTx & Hquote & Hneeds & Hfund & Hrem)].
    + apply lt_spec in Hlow. congruence.
    + rewrite (bind_ok _ _ _ _ _ Hquote).
      destruct (estimateNetworkFee_insufficient wallet walletBalance
                  nativeAmount currencyCode q fundingTx w2 Hneeds Hfund Hrem)
        as [w' Hest].
      rewrite (bind_throw _ _ _ _ _ Hest). eauto.
Qed.

Lemma fetchChangeQuote_insufficient_funds_witness :
  exists w',
    fetchChangeQuote sampleEnv
      (sampleRequest stake btcPolicyId "BTC" 25000
         (sampleWallet "bitcoin" "BTC" 30000 0 3000))
      initialWorld
    = (Throw (InsufficientFundsError "BTC"), w').
Proof.
  apply (fetchChangeQuote_insufficient_funds sampleEnv
           (sampleRequest stake btcPolicyId "BTC" 25000
              (sampleWallet "bitcoin" "BTC" 30000 0 3000))
           initialWorld (tcPolicy btcPolicyId "bitcoin" "BTC")
           {| asset_pluginId := "bitcoin"; asset_currencyCode := "BTC" |} []
           utxoInfo (25000 / 100000000)%Q 30000%Q).
  - reflexivity.
  - reflexivity.
  - reflexivity.
  - reflexivity.
  - reflexivity.
  - reflexivity.
  - reflexivity.
  - unfold Qle. simpl. lia.
  - reflexivity.
  - reflexivity.
  - right. do 3 eexists.
    split; [vm_compute; reflexivity|].
    split; [left; vm_compute; reflexivity|].
    split; [reflexivity|].
    vm_compute. reflexivity.
Defined.

(** The other way to the same error: the amount exceeds the balance. *)
Example stake_more_than_balance :
  fst (fetchChangeQuote sampleEnv
         (sampleRequest stake btcPolicyId "BTC" 25000
            (sampleWallet "bitcoin" "BTC" 20000 0 3000))
         initialWorld)
  = Throw (InsufficientFundsError "BTC").
Proof. reflexivity. Qed.

(** C7, as stated, fails on a stake request whose amount exceeds the balance
    but is below the minimum stake amount: the minimum is checked first, and
    the error is not an [InsufficientFundsError]. *)
Lemma stake_below_minimum_is_not_insufficient_funds :
  action (sampleRequest stake btcPolicyId "BTC" 10
            (sampleWallet "bitcoin" "BTC" 5 0 1000)) = stake
  /\ balances (sampleWallet "bitcoin" "BTC" 5 0 1000) !! "BTC" = Some 5%Q
  /\ (5 < 10)%Q
  /\ fetchChangeQuote sampleEnv
       (sampleRequest stake btcPolicyId "BTC" 10
          (sampleWallet "bitcoin" "BTC" 5 0 1000))
       initialWorld
     = (Throw (JsError "Must stake at least 0.0000001 BTC"),
        {| globals := initialGlobals;
           calls := [CallNativeToDenomination 10 "BTC"] |})
  /\ ~ (exists c w',
          fetchChangeQuote sampleEnv
            (sampleRequest stake btcPolicyId "BTC" 10
               (sampleWallet "bitcoin" "BTC" 5 0 1000))
            initialWorld
          = (Throw (InsufficientFundsError c), w')).
Proof.
  assert (H : fetchChangeQuote sampleEnv
       (sampleRequest stake btcPolicyId "BTC" 10
          (sampleWallet "bitcoin" "BTC" 5 0 1000))
       initialWorld
     = (Throw (JsError "Must stake at least 0.0000001 BTC"),
        {| globals := initialGlobals;
           calls := [CallNativeToDenomination 10 "BTC"] |}))
    by reflexivity.
  split; [reflexivity|]. split; [reflexivity|]. split; [reflexivity|].
  split; [exact H|].
  intros (c & w' & Hc). rewrite H in Hc. discriminate Hc.
Qed.

(** ** [fetchStakePosition] *)

Ltac prog_inv :=
  repeat match goal with
  | H : bind _ _ _ = (Ok _, _) |- _ =>
      let a := fresh "a" in
      let w := fresh "w" in
      let Ha := fresh "Ha" in
      apply bind_inv_ok in H; destruct H as (a & w & Ha & H)
  | H : ret _ _ = (Ok _, _) |- _ => unfold ret in H; inversion H; subst; clear H
  | H : throw _ _ = (Ok _, _) |- _ => discriminate H
  | H : divOrThrow _ _ _ _ = (Ok _, _) |- _ =>
      let q := fresh "q" in
      let Hq := fresh "Hq" in
      unfold divOrThrow in H;
      match type of H with
      | context [biggystring.div ?x ?y ?p] =>
          destruct (biggystring.div x y p) as [q|] eqn:Hq
      end
  | H : perform _ _ _ = (Ok _, _) |- _ => unfold perform in H; inversion H; subst; clear H
  end.

Lemma positionAmounts_earned_nonneg (wallet : EdgeCurrencyWallet)
  (currencyCode : string) (saver : option Saver) (pool : option Pool)
  (w w' : World) (amounts : BigNum * BigNum) :
  positionAmounts wallet currencyCode saver pool w = (Ok amounts, w') ->
  (0 <= snd amounts)%Q.
Proof.
  unfold positionAmounts. intros H.
  destruct saver as [saver|], pool as [pool|]; prog_inv;
    try apply Qle_refl.
  simpl. apply max_zero_nonneg.
Qed.

Lemma positionAmounts_absent (wallet : EdgeCurrencyWallet)
  (currencyCode : string) (saver : option Saver) (pool : option Pool)
  (w : World) :
  saver = None \/ pool = None ->
  positionAmounts wallet currencyCode saver pool w = (Ok (0%Q, 0%Q), w).
Proof.
  intros [-> | ->]; [|destruct saver]; reflexivity.
Qed.

Lemma positionAmounts_capped (wallet : EdgeCurrencyWallet)
  (currencyCode : string) (saver : Saver) (pool : Pool) (redeemable : BigNum)
  (w w' : World) (amounts : BigNum * BigNum) :
  keeps_sign wallet ->
  redeemableValue saver pool = Some redeemable ->
  (redeemable < asset_deposit_value saver)%Q ->
  positionAmounts wallet currencyCode (Some saver) (Some pool) w
  = (Ok amounts, w') ->
  snd amounts = 0%Q.
Proof.
  intros Hsign Hred Hlt H. unfold positionAmounts in H.
  rewrite Hred in H. prog_inv. simpl.
  apply max_zero_nonpos. apply truncate_nonpos.
  match goal with
  | Hd : denominationToNative _ ?x _ = Ok ?y |- (?y <= 0)%Q =>
      apply (Hsign x _ _ Hd)
  end.
  match goal with
  | Hq : biggystring.div ?x _ _ = Some ?q |- (?q <= 0)%Q =>
      apply (div_nonpos x _ _ _) with (3 := Hq)
  end.
  - unfold biggystring.sub. lra.
  - reflexivity.
Qed.

Lemma findSaver_none (primaryAddress : string) (savers : list Saver) :
  Forall (fun s => toLowerCase (asset_address s) <> toLowerCase primaryAddress)
    savers ->
  findSaver primaryAddress savers = None.
Proof.
  unfold findSaver. induction 1 as [|s savers Hne _ IH]; simpl.
  - reflexivity.
  - now rewrite (eqb_neq_false _ _ Hne).
Qed.

Lemma findPool_none (asset : string) (pools : list Pool) :
  Forall (fun p => pool_asset p <> asset) pools ->
  findPool asset pools = None.
Proof.
  unfold findPool. induction 1 as [|p pools Hne _ IH]; simpl.
  - reflexivity.
  - now rewrite (eqb_neq_false _ _ Hne).
Qed.

(** A successful call is made of its two stages. *)
Lemma fetchStakePosition_ok (env : Env) (request : StakePositionRequest)
  (w w' : World) (position : StakePosition) :
  fetchStakePosition env request w = (Ok position, w') ->
  exists d w1 amounts,
    fetchPositionData env request w = (Ok d, w1)
    /\ positionAmounts (position_wallet request) (data_currencyCode d)
         (findSaver (data_primaryAddress d) (data_savers d))
         (findPool (data_asset d) (data_pools d)) w1
       = (Ok amounts, w')
    /\ position =
       {| position_allocations :=
            [ {| position_pluginId := data_pluginId d;
                 position_currencyCode := data_currencyCode d;
                 position_allocationType := "staked";
                 position_nativeAmount := fst amounts |};
              {| position_pluginId := data_pluginId d;
                 position_currencyCode := data_currencyCode d;
                 position_allocationType := "earned";
                 position_nativeAmount := snd amounts |} ];
          canStake := true;
          canUnstake := true;
          canClaim := true |}.
Proof.
  unfold fetchStakePosition. intros H. prog_inv. eauto 6.
Qed.

(** C9: in the position returned by a successful [fetchStakePosition], the
    second allocation is the [earned] one and its [nativeAmount] is never
    negative; when the saver and the pool are found and the redeemable value
    is less than the deposit value, it is ['0'] (for a wallet whose
    conversion to native units keeps the sign). *)
Theorem fetchStakePosition_earned_nonneg (env : Env)
  (request : StakePositionRequest) (w w' : World) (position : StakePosition) :
  fetchStakePosition env request w = (Ok position, w') ->
  exists staked earned,
    position_allocations position = [staked; earned]
    /\ position_allocationType earned = "earned"
    /\ (0 <= position_nativeAmount earned)%Q
    /\ forall d w1 saver pool redeemable,
         fetchPositionData env request w = (Ok d, w1) ->
         findSaver (data_primaryAddress d) (data_savers d) = Some saver ->
         findPool (data_asset d) (data_pools d) = Some pool ->
         redeemableValue saver pool = Some redeemable ->
         (redeemable < asset_deposit_value saver)%Q ->
         keeps_sign (position_wallet request) ->
         position_nativeAmount earned = 0%Q.
Proof.
  intros H.
  destruct (fetchStakePosition_ok _ _ _ _ _ H)
    as (d & w1 & amounts & Hdata & Hamounts & ->).
  do 2 eexists. split; [reflexivity|]. split; [reflexivity|]. split.
  - simpl. eapply positionAmounts_earned_nonneg. exact Hamounts.
  - intros d' w1' saver pool redeemable Hdata' Hsaver Hpool Hred Hlt Hsign.
    rewrite Hdata in Hdata'. injection Hdata' as <- <-.
    rewrite Hsaver, Hpool in Hamounts. simpl.
    eapply positionAmounts_capped; eassumption.
Qed.

Lemma sampleWallet_keeps_sign (plugin code : string)
  (balance addressBalance fee : BigNum) :
  keeps_sign (sampleWallet plugin code balance addressBalance fee).
Proof.
  intros x c y. simpl. intros [= <-] Hx.
  apply Qle_trans with (0 * 100000000)%Q.
  - apply Qmult_le_compat_r; [assumption|]. unfold Qle. simpl. lia.
  - rewrite Qmult_0_l. apply Qle_refl.
Qed.

Lemma fetchStakePosition_earned_nonneg_witness :
  exists position w',
    fetchStakePosition sampleEnv (samplePositionRequest btcPolicyId) initialWorld
    = (Ok position, w')
    /\ exists staked earned,
         position_allocations position = [staked; earned]
         /\ (0 <= position_nativeAmount earned)%Q
         /\ position_nativeAmount earned = 0%Q.
Proof.
  destruct (fetchStakePosition sampleEnv (samplePositionRequest btcPolicyId)
              initialWorld) as [[position|e] w'] eqn:Hrun;
    [|vm_compute in Hrun; discriminate Hrun].
  exists position, w'. split; [reflexivity|].
  destruct (fetchStakePosition_earned_nonneg sampleEnv
              (samplePositionRequest btcPolicyId) initialWorld w' position Hrun)
    as (staked & earned & Hall & _ & Hnonneg & Hcapped).
  exists staked, earned. split; [exact Hall|]. split; [exact Hnonneg|].
  destruct (fetchPositionData sampleEnv (samplePositionRequest btcPolicyId)
              initialWorld) as [[d|e] w1] eqn:Hdata;
    [|vm_compute in Hdata; discriminate Hdata].
  eapply (Hcapped d w1 sampleSaver samplePool _ eq_refl).
  - vm_compute in Hdata. injection Hdata as <- _. reflexivity.
  - vm_compute in Hdata. injection Hdata as <- _. reflexivity.
  - vm_compute. reflexivity.
  - vm_compute. reflexivity.
  - apply sampleWallet_keeps_sign.
Defined.

Example sample_position_amounts :
  (fun position =>
     map (fun a => (position_allocationType a, position_nativeAmount a))
       (position_allocations position))
  <$> (match fst (fetchStakePosition sampleEnv
                    (samplePositionRequest btcPolicyId) initialWorld) with
       | Ok position => Some position
       | Throw _ => None
       end)
  = Some [("staked", 1200%Q); ("earned", 0%Q)].
Proof. reflexivity. Qed.

(** C10: a successful [fetchStakePosition] returns [canStake], [canUnstake]
    and [canClaim] all true; and when no saver's [asset_address] equals the
    primary address up to case (the addresses being ASCII text), or no pool
    has the asset, the staked and the earned amounts are both ['0']. *)
Theorem fetchStakePosition_no_position (env : Env)
  (request : StakePositionRequest) (w w' : World) (position : StakePosition) :
  fetchStakePosition env request w = (Ok position, w') ->
  canStake position = true
  /\ canUnstake position = true
  /\ canClaim position = true
  /\ exists d w1,
       fetchPositionData env request w = (Ok d, w1)
       /\ ((ascii_only (data_primaryAddress d) = true
            /\ Forall (fun s => ascii_only (asset_address s) = true)
                 (data_savers d)
            /\ Forall (fun s => toLowerCase (asset_address s)
                                <> toLowerCase (data_primaryAddress d))
                 (data_savers d))
           \/ Forall (fun p => pool_asset p <> data_asset d) (data_pools d) ->
           map (fun a => (position_allocationType a, position_nativeAmount a))
             (position_allocations position)
           = [("staked", 0%Q); ("earned", 0%Q)]).
Proof.
  intros H.
  destruct (fetchStakePosition_ok _ _ _ _ _ H)
    as (d & w1 & amounts & Hdata & Hamounts & ->).
  repeat split. exists d, w1. split; [exact Hdata|].
  intros Habsent.
  rewrite positionAmounts_absent in Hamounts.
  - injection Hamounts as <- _. reflexivity.
  - destruct Habsent as [(_ & _ & Hs) | Hp].
    + left. now apply findSaver_none.
    + right. now apply findPool_none.
Qed.

Lemma fetchStakePosition_no_position_witness :
  (exists position w',
     fetchStakePosition strangerEnv (samplePositionRequest btcPolicyId)
       initialWorld
     = (Ok position, w')
     /\ canStake position = true
     /\ canUnstake position = true
     /\ canClaim position = true
     /\ map (fun a => (position_allocationType a, position_nativeAmount a))
          (position_allocations position)
        = [("staked", 0%Q); ("earned", 0%Q)])
  /\ (exists position w',
        fetchStakePosition sampleEnv (samplePositionRequest ltcPolicyId)
          initialWorld
        = (Ok position, w')
        /\ canStake position = true
        /\ canUnstake position = true
        /\ canClaim position = true
        /\ map (fun a => (position_allocationType a, position_nativeAmount a))
             (position_allocations position)
           = [("staked", 0%Q); ("earned", 0%Q)]).
Proof.
  split.
  - destruct (fetchStakePosition strangerEnv (samplePositionRequest btcPolicyId)
                initialWorld) as [[position|e] w'] eqn:Hrun;
      [|vm_compute in Hrun; discriminate Hrun].
    exists position, w'. split; [reflexivity|].
    destruct (fetchStakePosition_no_position strangerEnv
                (samplePositionRequest btcPolicyId) initialWorld w' position Hrun)
      as (Hs & Hu & Hc & d & w1 & Hdata & Hzero).
    split; [exact Hs|]. split; [exact Hu|]. split; [exact Hc|].
    apply Hzero. left.
    vm_compute in Hdata. injection Hdata as <- _.
    split; [reflexivity|]. split.
    + repeat constructor.
    + repeat constructor. discriminate.
  - destruct (fetchStakePosition sampleEnv (samplePositionRequest ltcPolicyId)
                initialWorld) as [[position|e] w'] eqn:Hrun;
      [|vm_compute in Hrun; discriminate Hrun].
    exists position, w'. split; [reflexivity|].
    destruct (fetchStakePosition_no_position sampleEnv
                (samplePositionRequest ltcPolicyId) initialWorld w' position Hrun)
      as (Hs & Hu & Hc & d & w1 & Hdata & Hzero).
    split; [exact Hs|]. split; [exact Hu|]. split; [exact Hc|].
    apply Hzero. right.
    vm_compute in Hdata. injection Hdata as <- _.
    repeat constructor. discriminate.
Defined.

(** Matching the saver is case-insensitive: the sample saver is recorded in
    upper case and found from the lower-case address. *)
Example findSaver_ignores_case :
  findSaver "bc1qSample" [sampleSaver] = Some sampleSaver.
Proof. reflexivity. Qed.

(** * Further properties of [tcSavers.ts] *)

(** ** Footprints compose *)

Section Footprint.

Variable R : World -> World -> Prop.
Hypothesis R_refl : forall w, R w w.
Hypothesis R_trans : forall w1 w2 w3, R w1 w2 -> R w2 w3 -> R w1 w3.

Lemma respects_ret {A} (a : A) : respects R (ret a).
Proof. intros w r w' [= <- <-]. apply R_refl. Qed.

Lemma respects_throw {A} (e : Error) : respects R (@throw A e).
Proof. intros w r w' [= <- <-]. apply R_refl. Qed.

Lemma respects_liftResult {A} (x : Result A) : respects R (liftResult x).
Proof. intros w r w' [= <- <-]. apply R_refl. Qed.

Lemma respects_getGlobals : respects R getGlobals.
Proof. intros w r w' [= <- <-]. apply R_refl. Qed.

Lemma respects_bind {A B} (p : Prog A) (k : A -> Prog B) :
  respects R p -> (forall a, respects R (k a)) -> respects R (bind p k).
Proof.
  intros Hp Hk w r w'. unfold bind.
  destruct (p w) as [[a|e] w1] eqn:E.
  - intros H. eapply R_trans; [eapply Hp; exact E | eapply Hk; exact H].
  - intros [= <- <-]. eapply Hp. exact E.
Qed.

Lemma respects_try_catch {A} (p : Prog A) (handler : Error -> Prog A) :
  respects R p -> (forall e, respects R (handler e)) ->
  respects R (try_catch p handler).
Proof.
  intros Hp Hh w r w'. unfold try_catch.
  destruct (p w) as [[a|e] w1] eqn:E.
  - intros [= <- <-]. eapply Hp. exact E.
  - intros H. eapply R_trans; [eapply Hp; exact E | eapply Hh; exact H].
Qed.

End Footprint.

Lemma calls_only_refl (P : Call -> bool) (w : World) : calls_only P w w.
Proof. exists []. split; [now rewrite app_nil_r | reflexivity]. Qed.

Lemma calls_only_trans (P : Call -> bool) (w1 w2 w3 : World) :
  calls_only P w1 w2 -> calls_only P w2 w3 -> calls_only P w1 w3.
Proof.
  intros (n1 & E1 & F1) (n2 & E2 & F2). exists (n1 ++ n2)%list. split.
  - rewrite E2, E1. now rewrite app_assoc.
  - rewrite forallb_app, F1, F2. reflexivity.
Qed.

Lemma calls_only_perform {A} (P : Call -> bool) (c : Call) (x : Result A) :
  P c = true -> respects (calls_only P) (perform c x).
Proof.
  intros Hc w r w' [= <- <-]. exists [c]. simpl. now rewrite Hc.
Qed.

Lemma calls_only_modifyGlobals (P : Call -> bool) (f : Globals -> Globals) :
  respects (calls_only P) (modifyGlobals f).
Proof.
  intros w r w' [= <- <-]. exists []. simpl.
  split; [now rewrite app_nil_r | reflexivity].
Qed.

Lemma same_policies_perform {A} (c : Call) (x : Result A) :
  respects same_policies (perform c x).
Proof. intros w r w' [= <- <-]. reflexivity. Qed.

Lemma same_policies_modifyGlobals (f : Globals -> Globals) :
  (forall g, policies (f g) = policies g) ->
  respects same_policies (modifyGlobals f).
Proof. intros Hf w r w' [= <- <-]. apply Hf. Qed.

Lemma same_globals_perform {A} (c : Call) (x : Result A) :
  respects same_globals (perform c x).
Proof. intros w r w' [= <- <-]. reflexivity. Qed.

Lemma same_policies_trans (w1 w2 w3 : World) :
  same_policies w1 w2 -> same_policies w2 w3 -> same_policies w1 w3.
Proof. unfold same_policies. congruence. Qed.

Lemma same_globals_trans (w1 w2 w3 : World) :
  same_globals w1 w2 -> same_globals w2 w3 -> same_globals w1 w3.
Proof. unfold same_globals. congruence. Qed.

Ltac footprint_step refl trans :=
  first
    [ apply (respects_bind _ trans); [|intros ?]
    | apply (respects_try_catch _ trans); [|intros ?]
    | apply (respects_ret _ refl)
    | apply (respects_throw _ refl)
    | apply (respects_liftResult _ refl)
    | apply (respects_getGlobals _ refl)
    | match goal with
      | |- respects _ (if ?b then _ else _) => destruct b
      | |- respects _ (match ?x with _ => _ end) => destruct x
      end ].

Ltac calls_only_tac P :=
  repeat first
    [ footprint_step (calls_only_refl P) (calls_only_trans P)
    | apply calls_only_modifyGlobals
    | apply calls_only_perform; reflexivity ].

Ltac same_policies_tac :=
  repeat first
    [ footprint_step (fun w => eq_refl : same_policies w w) same_policies_trans
    | apply same_policies_perform
    | apply same_policies_modifyGlobals; reflexivity ].

Ltac same_globals_tac :=
  repeat first
    [ footprint_step (fun w => eq_refl : same_globals w w) same_globals_trans
    | apply same_globals_perform ].

Lemma updateInboundAddresses_keeps_policies (env : Env) :
  respects same_policies (updateInboundAddresses env).
Proof. unfold updateInboundAddresses. same_policies_tac. Qed.

Lemma updateInboundAddresses_calls (env : Env) :
  respects (calls_only (fun c => negb (is_wallet_spend c) && negb (is_quote_fetch c)))
    (updateInboundAddresses env).
Proof.
  unfold updateInboundAddresses.
  calls_only_tac (fun c => negb (is_wallet_spend c) && negb (is_quote_fetch c)).
Qed.

(** ** [getPolicyFromId], [updatePolicyApys], [makeTcSaversPlugin] *)

Lemma getPolicyFromId_cases (w : World) (policyId : string) :
  match getPolicyFromId policyId w with
  | (Ok policy, w') =>
      w' = w /\ stakePolicyId policy = policyId
      /\ In policy (policies (globals w))
  | (Throw e, w') =>
      w' = w /\ e = JsError ("Cannot find policy " ++ policyId)
      /\ Forall (fun policy => stakePolicyId policy <> policyId)
           (policies (globals w))
  end.
Proof.
  unfold getPolicyFromId, bind, getGlobals.
  destruct (lookupPolicy (policies (globals w)) policyId) as [policy|] eqn:E.
  - apply lookupPolicy_some in E. unfold ret. tauto.
  - unfold throw. repeat split.
    apply List.Forall_forall. intros policy Hin.
    apply String.eqb_neq. exact (find_none _ _ E policy Hin).
Qed.

(** X1: [getPolicyFromId] never touches the world; what it returns is a
    policy of the [policies] array with the requested id, and it throws
    [Cannot find policy <id>] exactly when no policy has that id. *)
Theorem getPolicyFromId_spec (w : World) (policyId : string) :
  match getPolicyFromId policyId w with
  | (Ok policy, w') =>
      w' = w /\ stakePolicyId policy = policyId
      /\ In policy (policies (globals w))
  | (Throw e, w') =>
      w' = w /\ e = JsError ("Cannot find policy " ++ policyId)
      /\ Forall (fun policy => stakePolicyId policy <> policyId)
           (policies (globals w))
  end.
Proof. apply getPolicyFromId_cases. Qed.

Lemma set_apy_same (policy : StakePolicy) : set_apy (apy policy) policy = policy.
Proof. now destruct policy. Qed.

Lemma refreshed_shapes (resp : gmap string Q) (ps : list StakePolicy) :
  map policy_shape
    (map (fun policy =>
            match resp !! stakePolicyId policy with
            | Some a => set_apy a policy
            | None => policy
            end) ps)
  = map policy_shape ps.
Proof.
  induction ps as [|policy ps IH]; simpl; [reflexivity|].
  rewrite IH. now destruct (resp !! stakePolicyId policy).
Qed.

Lemma refreshed_lookup (resp : gmap string Q) (ps : list StakePolicy)
  (policyId : string) :
  lookupPolicy
    (map (fun policy =>
            match resp !! stakePolicyId policy with
            | Some a => set_apy a policy
            | None => policy
            end) ps) policyId
  = (fun policy => set_apy (default (apy policy) (resp !! policyId)) policy)
      <$> lookupPolicy ps policyId.
Proof.
  unfold lookupPolicy.
  induction ps as [|policy ps IH]; simpl; [reflexivity|].
  assert (Hid :
    stakePolicyId
      match resp !! stakePolicyId policy with
      | Some a => set_apy a policy
      | None => policy
      end = stakePolicyId policy)
    by now destruct (resp !! stakePolicyId policy).
  rewrite Hid.
  destruct (String.eqb_spec (stakePolicyId policy) policyId) as [->|Hne].
  - simpl. destruct (resp !! policyId); simpl; [reflexivity|].
    now rewrite set_apy_same.
  - exact IH.
Qed.

(** X2: [updatePolicyApys] always returns, makes no call and leaves the
    caches alone; the policies keep their ids, provider and assets, and
    looking a policy up afterwards gives the policy found before with the
    [apy] of the response, or with its old [apy] when the response has none
    for that id. *)
Theorem updatePolicyApys_lookup (resp : gmap string Q) (w : World)
  (policyId : string) :
  exists w',
    updatePolicyApys resp w = (Ok tt, w')
    /\ calls w' = calls w
    /\ same_caches w w'
    /\ map policy_shape (policies (globals w'))
       = map policy_shape (policies (globals w))
    /\ lookupPolicy (policies (globals w')) policyId
       = (fun policy => set_apy (default (apy policy) (resp !! policyId)) policy)
           <$> lookupPolicy (policies (globals w)) policyId.
Proof.
  eexists. split; [reflexivity|]. simpl.
  split; [reflexivity|]. split; [repeat split|]. split.
  - apply refreshed_shapes.
  - apply refreshed_lookup.
Qed.

Lemma same_caches_refl (w : World) : same_caches w w.
Proof. repeat split. Qed.

Lemma same_caches_trans (w1 w2 w3 : World) :
  same_caches w1 w2 -> same_caches w2 w3 -> same_caches w1 w3.
Proof. unfold same_caches. intuition congruence. Qed.

Lemma same_shapes_trans (w1 w2 w3 : World) :
  same_shapes w1 w2 -> same_shapes w2 w3 -> same_shapes w1 w3.
Proof. unfold same_shapes. congruence. Qed.

Lemma same_caches_perform {A} (c : Call) (x : Result A) :
  respects same_caches (perform c x).
Proof. intros w r w' [= <- <-]. repeat split. Qed.

Lemma same_shapes_perform {A} (c : Call) (x : Result A) :
  respects same_shapes (perform c x).
Proof. intros w r w' [= <- <-]. reflexivity. Qed.

Lemma updatePolicyApys_same_caches (resp : gmap string Q) :
  respects same_caches (updatePolicyApys resp).
Proof. intros w r w' [= <- <-]. repeat split. Qed.

Lemma updatePolicyApys_same_shapes (resp : gmap string Q) :
  respects same_shapes (updatePolicyApys resp).
Proof. intros w r w' [= <- <-]. apply refreshed_shapes. Qed.

Lemma makeTcSaversPlugin_calls (env : Env) :
  respects (calls_only is_fetchInfo_or_console) (makeTcSaversPlugin env).
Proof.
  unfold makeTcSaversPlugin, updatePolicyApys.
  calls_only_tac is_fetchInfo_or_console.
Qed.

Lemma makeTcSaversPlugin_same_caches (env : Env) :
  respects same_caches (makeTcSaversPlugin env).
Proof.
  unfold makeTcSaversPlugin.
  repeat first
    [ footprint_step same_caches_refl same_caches_trans
    | apply same_caches_perform
    | apply updatePolicyApys_same_caches ].
Qed.

Lemma makeTcSaversPlugin_same_shapes (env : Env) :
  respects same_shapes (makeTcSaversPlugin env).
Proof.
  unfold makeTcSaversPlugin.
  repeat first
    [ footprint_step (fun w => eq_refl : same_shapes w w) same_shapes_trans
    | apply same_shapes_perform
    | apply updatePolicyApys_same_shapes ].
Qed.

(** X3: [makeTcSaversPlugin] never throws, whatever the info server answers
    (a fetch rejected with an [Error], an error status, a body that is not
    JSON or not of the expected shape); it calls nothing but [fetchInfo] and
    the console, not even the clock, and changes nothing but the [apy] of
    the policies. *)
Theorem makeTcSaversPlugin_never_throws (env : Env) (w : World) :
  exists w',
    makeTcSaversPlugin env w = (Ok tt, w')
    /\ calls_only is_fetchInfo_or_console w w'
    /\ same_caches w w'
    /\ same_shapes w w'.
Proof.
  assert (Hok : exists w', makeTcSaversPlugin env w = (Ok tt, w')).
  { unfold makeTcSaversPlugin, try_catch, bind, perform, liftResult, throw,
      ret, updatePolicyApys, modifyGlobals.
    destruct (fetchInfo env "v1/apyValues") as [[[|] t j]|e]; simpl.
    - destruct j as [[]|e]; simpl; eauto.
    - destruct t as [t|e]; simpl; eauto.
    - eauto. }
  destruct Hok as [w' H]. exists w'. split; [exact H|].
  split; [exact (makeTcSaversPlugin_calls env _ _ _ H)|].
  split; [exact (makeTcSaversPlugin_same_caches env _ _ _ H)|].
  exact (makeTcSaversPlugin_same_shapes env _ _ _ H).
Qed.

(** ** [updateInboundAddresses] *)

Lemma bind_inv_throw {A B} (p : Prog A) (k : A -> Prog B) (w w' : World)
  (e : Error) :
  bind p k w = (Throw e, w') ->
  p w = (Throw e, w')
  \/ exists a w1, p w = (Ok a, w1) /\ k a w1 = (Throw e, w').
Proof.
  unfold bind. destruct (p w) as [[a|e0] w1]; [eauto|].
  intros [= <- <-]. now left.
Qed.

Ltac case_answer :=
  match goal with
  | |- context [match ?x with _ => _ end] =>
      match type of x with
      | Result _ => destruct x
      | Response => destruct x
      | Json => destruct x
      | bool => destruct x eqn:?
      | option ExchangeInfo => destruct x eqn:?
      end
  end.

Ltac world_simpl :=
  cbn [globals calls exchangeInfo exchangeInfoLastUpdate inboundAddresses
       inboundAddressesLastUpdate midgardServers thornodeServers policies
       set_exchangeInfo set_servers set_inboundAddresses set_policies
       ok json text negb asExchangeInfo asInboundAddresses fst snd].

Lemma updateInboundAddresses_fresh_post (env : Env) (w w' : World) (u : unit) :
  updateInboundAddresses env w = (Ok u, w') ->
  inbound_fresh (dateNow env) (globals w').
Proof.
  unfold updateInboundAddresses. intros H.
  apply bind_inv_ok in H as (now & w1 & Hnow & H).
  unfold perform in Hnow. injection Hnow as <- <-.
  apply bind_inv_ok in H as (g & w2 & _ & H).
  apply bind_inv_ok in H as (u1 & w3 & _ & H).
  apply bind_inv_ok in H as (g0 & w4 & _ & H).
  apply bind_inv_ok in H as (u2 & w5 & _ & H).
  apply bind_inv_ok in H as (g1 & w6 & Hg1 & H).
  unfold getGlobals in Hg1. injection Hg1 as <- <-.
  destruct ((dateNow env - inboundAddressesLastUpdate (globals w5)
             >? INBOUND_ADDRESSES_UPDATE_FREQ_MS)%Z
            || is_null (inboundAddresses (globals w5))) eqn:Hstale.
  - apply bind_inv_ok in H as (iaResponse & w7 & _ & H).
    destruct (negb (ok iaResponse)).
    + apply bind_inv_ok in H as (t & w8 & _ & H). discriminate H.
    + apply bind_inv_ok in H as (iaJson & w8 & Hj & H).
      apply bind_inv_ok in H as (ia & w9 & Hia & H).
      unfold liftResult in Hj, Hia. injection Hj as _ <-. injection Hia as _ <-.
      unfold modifyGlobals in H. injection H as _ <-.
      split; simpl; [discriminate|].
      unfold INBOUND_ADDRESSES_UPDATE_FREQ_MS. lia.
  - unfold ret in H. injection H as _ <-.
    apply orb_false_iff in Hstale as [Hage Hnull]. split.
    + destruct (inboundAddresses (globals w5)); [discriminate|discriminate].
    + lia.
Qed.

(** X4: when [updateInboundAddresses] returns, the inbound addresses are
    cached and at most ten minutes old. *)
Theorem updateInboundAddresses_fresh (env : Env) (w w' : World) (u : unit) :
  updateInboundAddresses env w = (Ok u, w') ->
  inbound_fresh (dateNow env) (globals w').
Proof. apply updateInboundAddresses_fresh_post. Qed.

Lemma updateInboundAddresses_fresh_witness :
  inbound_fresh (dateNow sampleEnv)
    (globals (snd (updateInboundAddresses sampleEnv initialWorld))).
Proof.
  apply (updateInboundAddresses_fresh sampleEnv initialWorld _ tt).
  reflexivity.
Defined.

Lemma stale_false (now : Z) (g : Globals) :
  inbound_fresh now g ->
  (now - inboundAddressesLastUpdate g >? INBOUND_ADDRESSES_UPDATE_FREQ_MS)%Z
  || is_null (inboundAddresses g) = false.
Proof.
  intros [Hsome Hage]. apply orb_false_iff. split.
  - lia.
  - now destruct (inboundAddresses g).
Qed.

Lemma updateInboundAddresses_tolerant (env : Env) (w : World) :
  inbound_fresh (dateNow env) (globals w) ->
  exists w',
    updateInboundAddresses env w = (Ok tt, w')
    /\ calls_only is_fetchInfo w w'
    /\ inboundAddresses (globals w') = inboundAddresses (globals w)
    /\ inboundAddressesLastUpdate (globals w')
       = inboundAddressesLastUpdate (globals w)
    /\ policies (globals w') = policies (globals w).
Proof.
  intros Hfresh. apply stale_false in Hfresh.
  unfold updateInboundAddresses, bind, perform, getGlobals, try_catch,
    liftResult, modifyGlobals, ret, throw.
  repeat (world_simpl; rewrite ?Hfresh; case_answer).
  all: world_simpl; rewrite ?Hfresh.
  all: eexists; split; [reflexivity|]; world_simpl.
  all: split;
    [eexists; split; [rewrite <- ?app_assoc; reflexivity|reflexivity]|].
  all: repeat split.
Qed.

(** X5: while the inbound addresses are fresh, [updateInboundAddresses]
    returns whatever the info server does (no answer, an error status, a bad
    body): it only reads the clock, may call [fetchInfo] and the console, and
    leaves the cached inbound addresses and the policies as they are. *)
Theorem updateInboundAddresses_tolerates_info_server (env : Env) (w : World) :
  inbound_fresh (dateNow env) (globals w) ->
  exists w',
    updateInboundAddresses env w = (Ok tt, w')
    /\ calls_only is_fetchInfo w w'
    /\ inboundAddresses (globals w') = inboundAddresses (globals w)
    /\ inboundAddressesLastUpdate (globals w')
       = inboundAddressesLastUpdate (globals w)
    /\ policies (globals w') = policies (globals w).
Proof. apply updateInboundAddresses_tolerant. Qed.

Lemma updateInboundAddresses_tolerates_info_server_witness :
  exists w',
    updateInboundAddresses sampleEnv
      (snd (updateInboundAddresses sampleEnv initialWorld))
    = (Ok tt, w')
    /\ calls_only is_fetchInfo
         (snd (updateInboundAddresses sampleEnv initialWorld)) w'
    /\ inboundAddresses (globals w') = Some []
    /\ inboundAddressesLastUpdate (globals w') = 1700000000000%Z
    /\ policies (globals w') = initialPolicies.
Proof.
  apply (updateInboundAddresses_tolerates_info_server sampleEnv
           (snd (updateInboundAddresses sampleEnv initialWorld))).
  split; [discriminate | vm_compute; discriminate].
Defined.

(** X6: [updateInboundAddresses] throws only from the refresh of the inbound
    addresses: the last call made is then the [fetchWaterfall] of
    [v2/thorchain/inbound_addresses], and the inbound addresses cached
    before, their date and the policies are left as they were. *)
Theorem updateInboundAddresses_throw (env : Env) (w w' : World) (e : Error) :
  updateInboundAddresses env w = (Throw e, w') ->
  (exists servers before,
     calls w'
     = (before ++ [CallFetchWaterfall servers "v2/thorchain/inbound_addresses"])%list)
  /\ inboundAddresses (globals w') = inboundAddresses (globals w)
  /\ inboundAddressesLastUpdate (globals w')
     = inboundAddressesLastUpdate (globals w)
  /\ policies (globals w') = policies (globals w).
Proof.
  unfold updateInboundAddresses, bind, perform, getGlobals, try_catch,
    liftResult, modifyGlobals, ret, throw.
  repeat (world_simpl; case_answer).
  all: world_simpl; intros H; try discriminate H.
  all: injection H as _ <-; world_simpl.
  all: split; [do 2 eexists; reflexivity | repeat split].
Qed.

Lemma updateInboundAddresses_throw_witness :
  (exists servers before,
     calls (snd (updateInboundAddresses failingInboundEnv initialWorld))
     = (before ++ [CallFetchWaterfall servers "v2/thorchain/inbound_addresses"])%list)
  /\ inboundAddresses
       (globals (snd (updateInboundAddresses failingInboundEnv initialWorld)))
     = None
  /\ inboundAddressesLastUpdate
       (globals (snd (updateInboundAddresses failingInboundEnv initialWorld)))
     = 0%Z
  /\ policies
       (globals (snd (updateInboundAddresses failingInboundEnv initialWorld)))
     = initialPolicies.
Proof.
  apply (updateInboundAddresses_throw failingInboundEnv initialWorld _
           (JsError "Network request failed")).
  reflexivity.
Defined.

(** X7: within ten minutes of the last refreshes, [updateInboundAddresses]
    fetches nothing: it reads the clock, takes the server lists from the
    cached exchange info (keeping the thornode servers when the info has
    none) and returns. *)
Theorem updateInboundAddresses_cached (env : Env) (w : World)
  (info : ExchangeInfo) :
  exchangeInfo (globals w) = Some info ->
  (dateNow env - exchangeInfoLastUpdate (globals w)
   <= EXCHANGE_INFO_UPDATE_FREQ_MS)%Z ->
  inbound_fresh (dateNow env) (globals w) ->
  updateInboundAddresses env w
  = (Ok tt,
     {| globals :=
          set_servers (info_midgardServers info)
            (default (thornodeServers (globals w)) (info_thornodeServers info))
            (globals w);
        calls := calls w ++ [CallDateNow] |}).
Proof.
  intros Hinfo Hage Hfresh. apply stale_false in Hfresh.
  assert (Hcond :
    (dateNow env - exchangeInfoLastUpdate (globals w)
     >? EXCHANGE_INFO_UPDATE_FREQ_MS)%Z
    || is_null (exchangeInfo (globals w)) = false).
  { rewrite Hinfo. apply orb_false_iff. split; [lia | reflexivity]. }
  unfold updateInboundAddresses, bind, perform, getGlobals, try_catch,
    liftResult, modifyGlobals, ret, throw.
  world_simpl. rewrite Hcond. world_simpl. rewrite Hinfo. world_simpl.
  rewrite Hfresh. reflexivity.
Qed.

Lemma updateInboundAddresses_cached_witness :
  updateInboundAddresses sampleEnv
    (snd (updateInboundAddresses sampleEnv initialWorld))
  = (Ok tt,
     {| globals := globals (snd (updateInboundAddresses sampleEnv initialWorld));
        calls :=
          calls (snd (updateInboundAddresses sampleEnv initialWorld))
          ++ [CallDateNow] |}).
Proof.
  apply (updateInboundAddresses_cached sampleEnv
           (snd (updateInboundAddresses sampleEnv initialWorld))
           {| info_midgardServers := ["https://midgard.sample"];
              info_thornodeServers := None;
              info_nineRealmsServers := None;
              info_thorSwapServers := None |}).
  - reflexivity.
  - vm_compute. discriminate.
  - split; [discriminate | vm_compute; discriminate].
Defined.

(** ** What a quote and a position never do *)

Lemma calls_only_weaken {A} (P Q : Call -> bool) (p : Prog A) :
  (forall c, P c = true -> Q c = true) ->
  respects (calls_only P) p -> respects (calls_only Q) p.
Proof.
  intros HPQ Hp w r w' H. destruct (Hp w r w' H) as (new & E & F).
  exists new. split; [exact E|].
  apply forallb_forall. intros c Hc. apply HPQ.
  exact (proj1 (forallb_forall _ _) F c Hc).
Qed.

Lemma updateInboundAddresses_read_only (env : Env) :
  respects (calls_only read_only_call) (updateInboundAddresses env).
Proof. unfold updateInboundAddresses. calls_only_tac read_only_call. Qed.

Lemma updateInboundAddresses_not_signing (env : Env) :
  respects (calls_only not_signing) (updateInboundAddresses env).
Proof. unfold updateInboundAddresses. calls_only_tac not_signing. Qed.

Lemma fetchDepositQuote_not_signing (env : Env) (wallet : EdgeCurrencyWallet)
  (currencyCode : string) (thorAmount : BigNum) :
  respects (calls_only not_signing)
    (fetchDepositQuote env wallet currencyCode thorAmount).
Proof.
  unfold fetchDepositQuote, getPrimaryAddress, divOrThrow. cbv zeta.
  repeat first
    [ apply updateInboundAddresses_not_signing
    | footprint_step (calls_only_refl not_signing) (calls_only_trans not_signing)
    | apply calls_only_perform; reflexivity ].
Qed.

Lemma estimateNetworkFee_not_signing (wallet : EdgeCurrencyWallet)
  (walletBalance nativeAmount : BigNum) (currencyCode : string)
  (q : DepositQuote) :
  respects (calls_only not_signing)
    (estimateNetworkFee wallet walletBalance nativeAmount currencyCode q).
Proof.
  unfold estimateNetworkFee, callMakeSpend. cbv zeta.
  calls_only_tac not_signing.
Qed.

Lemma stakeRequest_not_signing (env : Env) (request : ChangeQuoteRequest)
  (policy : StakePolicy) :
  respects (calls_only not_signing) (stakeRequest env request policy).
Proof.
  unfold stakeRequest. cbv zeta.
  repeat first
    [ apply fetchDepositQuote_not_signing
    | apply estimateNetworkFee_not_signing
    | footprint_step (calls_only_refl not_signing) (calls_only_trans not_signing)
    | apply calls_only_perform; reflexivity ].
Qed.

Lemma unstakeRequest_same_world (request : ChangeQuoteRequest)
  (policy : StakePolicy) :
  respects eq (unstakeRequest request policy).
Proof.
  unfold unstakeRequest. intros w r w'.
  destruct (stakeAssets policy); now intros [= <- <-].
Qed.

Lemma getPolicyFromId_same_world (policyId : string) :
  respects eq (getPolicyFromId policyId).
Proof.
  intros w r w' H. pose proof (getPolicyFromId_cases w policyId) as S.
  rewrite H in S. destruct r; symmetry; tauto.
Qed.

Lemma respects_eq {A} (R : World -> World -> Prop) (p : Prog A) :
  (forall w, R w w) -> respects eq p -> respects R p.
Proof. intros Hrefl Hp w r w' H. rewrite <- (Hp w r w' H). apply Hrefl. Qed.

(** X8: asking for a quote never signs, broadcasts or saves a transaction,
    whatever the action, the wallet and the network do, and whether the
    quote is returned or an exception thrown. *)
Theorem fetchChangeQuote_never_signs (env : Env) (request : ChangeQuoteRequest)
  (w w' : World) (r : Result ChangeQuote) :
  fetchChangeQuote env request w = (r, w') ->
  exists new,
    calls w' = (calls w ++ new)%list
    /\ forallb (fun c => negb (is_signing_call c)) new = true.
Proof.
  revert w r w'.
  change (respects (calls_only not_signing) (fetchChangeQuote env request)).
  unfold fetchChangeQuote. cbv zeta.
  repeat first
    [ apply (respects_eq _ _ (calls_only_refl not_signing)
               (getPolicyFromId_same_world _))
    | match goal with
      | |- respects _ (match changeQuoteFuncs _ ?a with _ => _ end) =>
          destruct a; cbn [changeQuoteFuncs]
      end
    | apply stakeRequest_not_signing
    | apply (respects_eq _ _ (calls_only_refl not_signing)
               (unstakeRequest_same_world _ _))
    | footprint_step (calls_only_refl not_signing) (calls_only_trans not_signing) ].
Qed.

Lemma fetchChangeQuote_never_signs_witness :
  exists new,
    calls (snd (fetchChangeQuote sampleEnv
                  (sampleRequest stake btcPolicyId "BTC" 25000
                     (sampleWallet "bitcoin" "BTC" 40000 0 3000))
                  initialWorld))
    = (calls initialWorld ++ new)%list
    /\ forallb (fun c => negb (is_signing_call c)) new = true.
Proof.
  apply (fetchChangeQuote_never_signs sampleEnv
           (sampleRequest stake btcPolicyId "BTC" 25000
              (sampleWallet "bitcoin" "BTC" 40000 0 3000))
           initialWorld _
           (fst (fetchChangeQuote sampleEnv
                   (sampleRequest stake btcPolicyId "BTC" 25000
                      (sampleWallet "bitcoin" "BTC" 40000 0 3000))
                   initialWorld))).
  apply surjective_pairing.
Defined.

Lemma fetchSaversAndPools_read_only (env : Env) (asset : string) :
  respects (calls_only read_only_call) (fetchSaversAndPools env asset).
Proof.
  intros w r w'. unfold fetchSaversAndPools, bind, getGlobals.
  destruct (fetchWaterfall env (thornodeServers (globals w)) _) as [s|e];
    [destruct (fetchWaterfall env (midgardServers (globals w)) _) as [p|e]|];
    intros [= <- <-]; eexists; (split; [reflexivity|reflexivity]).
Qed.

Lemma fetchSaversAndPools_same_globals (env : Env) (asset : string) :
  respects same_globals (fetchSaversAndPools env asset).
Proof.
  intros w r w'. unfold fetchSaversAndPools, bind, getGlobals.
  destruct (fetchWaterfall env (thornodeServers (globals w)) _) as [s|e];
    [destruct (fetchWaterfall env (midgardServers (globals w)) _) as [p|e]|];
    intros [= <- <-]; reflexivity.
Qed.

Lemma fetchPositionData_read_only (env : Env) (request : StakePositionRequest) :
  respects (calls_only read_only_call) (fetchPositionData env request).
Proof.
  unfold fetchPositionData, getPrimaryAddress. cbv zeta.
  repeat first
    [ apply updateInboundAddresses_read_only
    | apply fetchSaversAndPools_read_only
    | apply (respects_eq _ _ (calls_only_refl read_only_call)
               (getPolicyFromId_same_world _))
    | footprint_step (calls_only_refl read_only_call)
        (calls_only_trans read_only_call)
    | apply calls_only_perform; reflexivity ].
Qed.

Lemma positionAmounts_read_only (wallet : EdgeCurrencyWallet)
  (currencyCode : string) (saver : option Saver) (pool : option Pool) :
  respects (calls_only read_only_call)
    (positionAmounts wallet currencyCode saver pool).
Proof.
  unfold positionAmounts, divOrThrow. cbv zeta.
  calls_only_tac read_only_call.
Qed.

(** X9: reading a stake position never spends from the wallet (no
    [makeSpend], [signTx], [broadcastTx], [saveTx]) and never asks Thorchain
    for a deposit quote, whether it returns or throws. *)
Theorem fetchStakePosition_read_only (env : Env)
  (request : StakePositionRequest) (w w' : World) (r : Result StakePosition) :
  fetchStakePosition env request w = (r, w') ->
  exists new,
    calls w' = (calls w ++ new)%list
    /\ forallb (fun c => negb (is_wallet_spend c) && negb (is_quote_fetch c)) new
       = true.
Proof.
  revert w r w'.
  change (respects (calls_only read_only_call) (fetchStakePosition env request)).
  unfold fetchStakePosition. cbv zeta.
  repeat first
    [ apply fetchPositionData_read_only
    | apply positionAmounts_read_only
    | footprint_step (calls_only_refl read_only_call)
        (calls_only_trans read_only_call) ].
Qed.

Lemma fetchStakePosition_read_only_witness :
  exists new,
    calls (snd (fetchStakePosition sampleEnv (samplePositionRequest btcPolicyId)
                  initialWorld))
    = (calls initialWorld ++ new)%list
    /\ forallb (fun c => negb (is_wallet_spend c) && negb (is_quote_fetch c)) new
       = true.
Proof.
  apply (fetchStakePosition_read_only sampleEnv
           (samplePositionRequest btcPolicyId) initialWorld _
           (fst (fetchStakePosition sampleEnv
                   (samplePositionRequest btcPolicyId) initialWorld))).
  apply surjective_pairing.
Defined.

(** The policies are only ever written by [updatePolicyApys]. *)
Lemma same_policies_of_globals {A} (p : Prog A) :
  respects same_globals p -> respects same_policies p.
Proof.
  intros Hp w r w' H. unfold same_policies. now rewrite (Hp w r w' H).
Qed.

Lemma same_policies_of_eq {A} (p : Prog A) :
  respects eq p -> respects same_policies p.
Proof. intros Hp w r w' H. now rewrite <- (Hp w r w' H). Qed.

Lemma stakeRequest_keeps_policies (env : Env) (request : ChangeQuoteRequest)
  (policy : StakePolicy) :
  respects same_policies (stakeRequest env request policy).
Proof.
  unfold stakeRequest, fetchDepositQuote, estimateNetworkFee, getPrimaryAddress,
    callMakeSpend, divOrThrow.
  cbv zeta.
  repeat first
    [ apply updateInboundAddresses_keeps_policies
    | footprint_step (fun w => eq_refl : same_policies w w) same_policies_trans
    | apply same_policies_perform ].
Qed.

(** X10: neither [fetchChangeQuote] nor [fetchStakePosition] ever changes
    the [policies] array: a policy found by id before a call is found, with
    the same [apy] and assets, after it. *)
Theorem quotes_and_positions_keep_policies (env : Env) (w w' : World) :
  (forall request r,
     fetchChangeQuote env request w = (r, w') ->
     policies (globals w') = policies (globals w))
  /\ (forall request r,
        fetchStakePosition env request w = (r, w') ->
        policies (globals w') = policies (globals w)).
Proof.
  split; intros request r; revert w r w'.
  - change (respects same_policies (fetchChangeQuote env request)).
    unfold fetchChangeQuote. cbv zeta.
    repeat first
      [ apply (same_policies_of_eq _ (getPolicyFromId_same_world _))
      | match goal with
        | |- respects _ (match changeQuoteFuncs _ ?a with _ => _ end) =>
            destruct a; cbn [changeQuoteFuncs]
        end
      | apply stakeRequest_keeps_policies
      | apply (same_policies_of_eq _ (unstakeRequest_same_world _ _))
      | footprint_step (fun w => eq_refl : same_policies w w) same_policies_trans ].
  - change (respects same_policies (fetchStakePosition env request)).
    unfold fetchStakePosition, fetchPositionData, positionAmounts,
      getPrimaryAddress, divOrThrow.
    cbv zeta.
    repeat first
      [ apply updateInboundAddresses_keeps_policies
      | apply (same_policies_of_eq _ (getPolicyFromId_same_world _))
      | apply (same_policies_of_globals _ (fetchSaversAndPools_same_globals _ _))
      | footprint_step (fun w => eq_refl : same_policies w w) same_policies_trans
      | apply same_policies_perform ].
Qed.

Lemma quotes_and_positions_keep_policies_witness :
  policies
    (globals
       (snd (fetchChangeQuote sampleEnv
               (sampleRequest stake btcPolicyId "BTC" 25000
                  (sampleWallet "bitcoin" "BTC" 40000 0 3000))
               initialWorld)))
  = policies (globals initialWorld).
Proof.
  apply (proj1 (quotes_and_positions_keep_policies sampleEnv initialWorld _)
           (sampleRequest stake btcPolicyId "BTC" 25000
              (sampleWallet "bitcoin" "BTC" 40000 0 3000))
           (fst (fetchChangeQuote sampleEnv
                   (sampleRequest stake btcPolicyId "BTC" 25000
                      (sampleWallet "bitcoin" "BTC" 40000 0 3000))
                   initialWorld))).
  apply surjective_pairing.
Defined.

(** ** [stakeRequest]: the fee estimate *)

Ltac case_run :=
  match goal with
  | |- context [match ?x with _ => _ end] =>
      match type of x with
      | Result _ => destruct x eqn:?
      | bool => destruct x eqn:?
      | Error => destruct x
      end
  end.

(** X11: when the fee estimate of [stakeRequest] returns
    [(needsFundingPrimary, networkFee)], either the primary address already
    holds the amount and needs no funding, or it needs funding and the wallet
    balance covers the amount and twice the network fee. *)
Theorem estimateNetworkFee_ok (wallet : EdgeCurrencyWallet)
  (walletBalance nativeAmount : BigNum) (currencyCode : string)
  (q : DepositQuote) (w w' : World) (needsFundingPrimary : bool)
  (fee : BigNum) :
  estimateNetworkFee wallet walletBalance nativeAmount currencyCode q w
  = (Ok (needsFundingPrimary, fee), w') ->
  if needsFundingPrimary
  then (0 <= walletBalance - fee * 2 - nativeAmount)%Q
  else (nativeAmount <= quote_addressBalance q)%Q.
Proof.
  unfold estimateNetworkFee, bind, try_catch, callMakeSpend, perform, ret,
    throw.
  repeat (cbn [fst snd]; case_run).
  all: cbn [fst snd]; intros H; try discriminate H.
  all: inversion H; subst; clear H.
  all: now apply lt_false.
Qed.

Lemma estimateNetworkFee_ok_witness :
  (0 <= 40000 - 3000 * 2 - 25000)%Q.
Proof.
  apply (estimateNetworkFee_ok (sampleWallet "bitcoin" "BTC" 40000 0 3000)
           40000 25000 "BTC"
           {| quote_primaryAddress := "bc1qSample";
              quote_addressBalance := 0;
              quote_poolAddress := "bc1qPool";
              quote_slippageNativeAmount := 1000 |}
           initialWorld
           (snd (estimateNetworkFee (sampleWallet "bitcoin" "BTC" 40000 0 3000)
                   40000 25000 "BTC"
                   {| quote_primaryAddress := "bc1qSample";
                      quote_addressBalance := 0;
                      quote_poolAddress := "bc1qPool";
                      quote_slippageNativeAmount := 1000 |}
                   initialWorld))
           true 3000).
  reflexivity.
Defined.

(** X12: when the primary address holds the amount and the direct spend
    estimate fails with anything but [InsufficientFundsError], the failure is
    swallowed: the estimate returns without funding and with a network fee of
    ['0'], after that single [makeSpend]. *)
Theorem estimateNetworkFee_swallows (wallet : EdgeCurrencyWallet)
  (walletBalance nativeAmount : BigNum) (currencyCode : string)
  (q : DepositQuote) (w : World) (e : Error) :
  (nativeAmount <= quote_addressBalance q)%Q ->
  makeSpend wallet
    (spendTo (quote_poolAddress q) nativeAmount
       (Some (stakeSpendParams (quote_primaryAddress q))) None)
  = Throw e ->
  (forall c, e <> InsufficientFundsError c) ->
  estimateNetworkFee wallet walletBalance nativeAmount currencyCode q w
  = (Ok (false, 0%Q),
     {| globals := globals w;
        calls :=
          calls w
          ++ [CallMakeSpend
                (spendTo (quote_poolAddress q) nativeAmount
                   (Some (stakeSpendParams (quote_primaryAddress q))) None)] |}).
Proof.
  intros Hheld Hspend Hother. apply lt_false in Hheld.
  unfold estimateNetworkFee, bind, try_catch, callMakeSpend, perform, ret.
  rewrite Hheld, Hspend.
  destruct e; try reflexivity. now destruct (Hother currencyCode0).
Qed.

Lemma estimateNetworkFee_swallows_witness :
  estimateNetworkFee
    (failingSpendWallet (JsError "spend failed") 40000 30000)
    40000 25000 "BTC" (sampleQuote 30000) initialWorld
  = (Ok (false, 0%Q),
     {| globals := initialGlobals;
        calls :=
          [CallMakeSpend
             (spendTo "bc1qPool" 25000
                (Some (stakeSpendParams "bc1qSample")) None)] |}).
Proof.
  apply (estimateNetworkFee_swallows
           (failingSpendWallet (JsError "spend failed") 40000 30000)
           40000 25000 "BTC" (sampleQuote 30000) initialWorld
           (JsError "spend failed")).
  - unfold Qle. simpl. lia.
  - reflexivity.
  - discriminate.
Defined.

(** ** [stakeRequest]: what a returned quote tells *)

(** X13: when [stakeRequest] returns a quote, the wallet's chain has a
    minimum amount, the requested amount is at least that minimum plus 10000
    and at most the wallet balance, and the quote has exactly two
    allocations: [stake] for the requested amount and [fee] for a whole
    number of native units, both for the wallet's plugin and the requested
    currency. *)
Theorem stakeRequest_ok (env : Env) (request : ChangeQuoteRequest)
  (policy : StakePolicy) (w w' : World) (quote : ChangeQuote) :
  let wallet := request_wallet request in
  let nativeAmount := request_nativeAmount request in
  let currencyCode := request_currencyCode request in
  let pluginId := currencyInfo_pluginId (currencyInfo wallet) in
  stakeRequest env request policy w = (Ok quote, w') ->
  exists info walletBalance feeAmount,
    policyCurrencyInfos !! pluginId = Some info
    /\ (minAmount info + TC_SAVERS_WITHDRAWAL_SCALE_UNITS <= nativeAmount)%Q
    /\ balances wallet !! currencyCode = Some walletBalance
    /\ (nativeAmount <= walletBalance)%Q
    /\ allocations quote
       = [ {| allocationType := "stake";
              allocation_pluginId := pluginId;
              allocation_currencyCode := currencyCode;
              allocation_nativeAmount := nativeAmount |};
           {| allocationType := "fee";
              allocation_pluginId := pluginId;
              allocation_currencyCode := currencyCode;
              allocation_nativeAmount := feeAmount |} ]
    /\ Qden feeAmount = 1%positive.
Proof.
  intros wallet nativeAmount currencyCode pluginId.
  unfold stakeRequest. fold wallet nativeAmount currencyCode pluginId.
  destruct (policyCurrencyInfos !! pluginId) as [info|]; [|discriminate].
  intros H.
  apply bind_inv_ok in H as (exchangeAmount & w1 & _ & H).
  destruct (biggystring.lt nativeAmount _) eqn:Hmin; [discriminate H|].
  destruct (balances wallet !! currencyCode) as [walletBalance|];
    [|discriminate H].
  destruct (biggystring.lt walletBalance nativeAmount) eqn:Hbal;
    [discriminate H|].
  apply bind_inv_ok in H as (q & w2 & _ & H).
  apply bind_inv_ok in H as (estimate & w3 & _ & H).
  unfold ret in H. injection H as <- _.
  exists info, walletBalance. eexists.
  split; [reflexivity|]. split; [now apply lt_false|].
  split; [reflexivity|]. split; [now apply lt_false|].
  split; reflexivity.
Qed.

Lemma stakeRequest_ok_witness :
  exists info walletBalance feeAmount,
    policyCurrencyInfos !! "bitcoin" = Some info
    /\ (minAmount info + TC_SAVERS_WITHDRAWAL_SCALE_UNITS <= 25000)%Q
    /\ balances (sampleWallet "bitcoin" "BTC" 40000 0 3000) !! "BTC"
       = Some walletBalance
    /\ (25000 <= walletBalance)%Q
    /\ allocations
         (match fst (stakeRequest sampleEnv
                       (sampleRequest stake btcPolicyId "BTC" 25000
                          (sampleWallet "bitcoin" "BTC" 40000 0 3000))
                       (tcPolicy btcPolicyId "bitcoin" "BTC") initialWorld) with
          | Ok quote => quote
          | Throw _ => {| allocations := []; approve := ret tt |}
          end)
       = [ {| allocationType := "stake";
              allocation_pluginId := "bitcoin";
              allocation_currencyCode := "BTC";
              allocation_nativeAmount := 25000 |};
           {| allocationType := "fee";
              allocation_pluginId := "bitcoin";
              allocation_currencyCode := "BTC";
              allocation_nativeAmount := feeAmount |} ]
    /\ Qden feeAmount = 1%positive.
Proof.
  apply (stakeRequest_ok sampleEnv
           (sampleRequest stake btcPolicyId "BTC" 25000
              (sampleWallet "bitcoin" "BTC" 40000 0 3000))
           (tcPolicy btcPolicyId "bitcoin" "BTC") initialWorld
           (snd (stakeRequest sampleEnv
                   (sampleRequest stake btcPolicyId "BTC" 25000
                      (sampleWallet "bitcoin" "BTC" 40000 0 3000))
                   (tcPolicy btcPolicyId "bitcoin" "BTC") initialWorld))).
  vm_compute. reflexivity.
Defined.

(** ** [approve] *)

(** X14: the [approve] of a stake quote assigns no module-level variable and
    calls only the wallet: first, when funding is needed, the transfer of the
    amount plus one network fee to the primary address, then the deposit of
    the amount to the pool, each as [makeSpend], [signTx], [broadcastTx],
    [saveTx] on the transaction the call before returned.  When it returns
    all these calls have been made; when it throws, only a beginning of
    them.  So the deposit to the pool is built only after the funding
    transaction has been made, signed, broadcast and saved. *)
Theorem approveStake_calls (wallet : EdgeCurrencyWallet) (nativeAmount : BigNum)
  (q : DepositQuote) (needsFundingPrimary : bool) (networkFee : BigNum)
  (w w' : World) (r : Result unit) :
  approveStake wallet nativeAmount q needsFundingPrimary networkFee w = (r, w') ->
  globals w' = globals w
  /\ exists new rest later,
       calls w' = (calls w ++ new)%list
       /\ approve_rounds needsFundingPrimary
          = (map call_kind new ++ rest)%list
       /\ (r = Ok tt -> rest = [])
       /\ approve_spends needsFundingPrimary q nativeAmount networkFee
          = (spends_of new ++ later)%list
       /\ linked wallet new.
Proof.
  unfold approveStake, signBroadcastSave, callMakeSpend, bind, perform, ret.
  fold (fundingSpend q nativeAmount networkFee). fold (poolSpend q nativeAmount).
  destruct needsFundingPrimary.
  all: repeat (cbn [fst snd]; case_run).
  all: intros H; inversion H; subst; clear H; cbn [globals calls].
  all: split; [reflexivity|].
  all: eexists; eexists; eexists; split;
    [rewrite <- ?app_assoc; cbn [app]; reflexivity|].
  all: split; [cbn; reflexivity|].
  all: split; [first [discriminate | reflexivity]|].
  all: split; [cbn; reflexivity|].
  all: cbn [linked follows];
    repeat match goal with u : unit |- _ => destruct u end;
    repeat split; assumption.
Qed.

Lemma approveStake_calls_witness :
  globals
    (snd (approveStake (sampleWallet "bitcoin" "BTC" 40000 0 3000) 25000
            (sampleQuote 0) true 3000 initialWorld))
  = globals initialWorld
  /\ exists new rest later,
       calls
         (snd (approveStake (sampleWallet "bitcoin" "BTC" 40000 0 3000) 25000
                 (sampleQuote 0) true 3000 initialWorld))
       = (calls initialWorld ++ new)%list
       /\ approve_rounds true = (map call_kind new ++ rest)%list
       /\ (Ok tt = Ok tt -> rest = [])
       /\ approve_spends true (sampleQuote 0) 25000 3000
          = (spends_of new ++ later)%list
       /\ linked (sampleWallet "bitcoin" "BTC" 40000 0 3000) new.
Proof.
  apply (approveStake_calls (sampleWallet "bitcoin" "BTC" 40000 0 3000) 25000
           (sampleQuote 0) true 3000 initialWorld).
  reflexivity.
Defined.

Lemma funding_is_not_pool (q : DepositQuote) (nativeAmount networkFee : BigNum) :
  CallMakeSpend (fundingSpend q nativeAmount networkFee)
  <> CallMakeSpend (poolSpend q nativeAmount).
Proof.
  intros H.
  pose proof
    (f_equal (fun c => match c with
                       | CallMakeSpend info => metadata info
                       | _ => None
                       end) H) as E.
  discriminate E.
Qed.

(** Hence, when funding is needed, whatever precedes the deposit to the pool
    is the complete funding round, every step of it answered by the
    wallet. *)
Lemma pool_spend_after_funding (wallet : EdgeCurrencyWallet)
  (new : list Call) (kinds : list CallKind) (spends : list EdgeSpendInfo)
  (q : DepositQuote) (nativeAmount networkFee : BigNum) :
  approve_rounds true = (map call_kind new ++ kinds)%list ->
  approve_spends true q nativeAmount networkFee = (spends_of new ++ spends)%list ->
  linked wallet new ->
  In (CallMakeSpend (poolSpend q nativeAmount)) new ->
  exists tx signed sent after,
    new = ([ CallMakeSpend (fundingSpend q nativeAmount networkFee);
             CallSignTx tx; CallBroadcastTx signed; CallSaveTx sent;
             CallMakeSpend (poolSpend q nativeAmount) ] ++ after)%list
    /\ makeSpend wallet (fundingSpend q nativeAmount networkFee) = Ok tx
    /\ signTx wallet tx = Ok signed
    /\ broadcastTx wallet signed = Ok sent
    /\ saveTx wallet sent = Ok tt.
Proof.
  unfold approve_rounds, approve_spends, spend_round. cbn [app].
  intros Hkinds Hspends Hlinked Hin.
  destruct new as [|c1 new]; [destruct Hin|].
  destruct c1; try discriminate Hkinds. cbn in Hkinds, Hspends.
  injection Hspends as <- Hspends.
  assert (Hno : forall l : list Call,
            Forall (fun c => call_kind c <> KMakeSpend) l ->
            In (CallMakeSpend (poolSpend q nativeAmount))
              (CallMakeSpend (fundingSpend q nativeAmount networkFee) :: l) ->
            False).
  { intros l Hl [Hc|Hc]; [now apply funding_is_not_pool in Hc|].
    apply (proj1 (List.Forall_forall _ _) Hl) in Hc. now apply Hc. }
  destruct new as [|c2 new]; [exfalso; refine (Hno _ _ Hin); constructor|].
  destruct c2; try discriminate Hkinds.
  destruct new as [|c3 new];
    [exfalso; refine (Hno _ _ Hin); repeat (constructor; [discriminate|]); constructor|].
  destruct c3; try discriminate Hkinds.
  destruct new as [|c4 new];
    [exfalso; refine (Hno _ _ Hin); repeat (constructor; [discriminate|]); constructor|].
  destruct c4; try discriminate Hkinds.
  destruct new as [|c5 new];
    [exfalso; refine (Hno _ _ Hin); repeat (constructor; [discriminate|]); constructor|].
  destruct c5; try discriminate Hkinds.
  cbn in Hspends.
  assert (Hinfo : info = poolSpend q nativeAmount).
  { destruct (spends_of new ++ spends)%list; [|discriminate Hspends].
    now injection Hspends as <-. }
  subst info.
  cbn [linked follows] in Hlinked.
  destruct Hlinked as (H1 & H2 & H3 & H4 & _).
  exists tx, tx0, tx1, new. cbn [app]. repeat split; assumption.
Qed.

(** The funding transfer is for the amount plus one network fee. *)
Example approve_funding_amount :
  hd_error
    (calls (snd (approveStake (sampleWallet "bitcoin" "BTC" 40000 0 3000) 25000
                   (sampleQuote 0) true 3000 initialWorld)))
  = Some
      (CallMakeSpend
         (spendTo "bc1qSample" (3000 + 25000)%Q
            (Some {| outputSort := None;
                     utxoSourceAddress := None;
                     forceChangeAddress := Some "bc1qSample" |})
            (Some {| metadata_name := "Thorchain Savers";
                     metadata_category := "Expense:Network Fee" |}))).
Proof. reflexivity. Qed.

(** ** [fetchChangeQuote]: the other actions *)

(** X15: for [unstake] and for [claim], a request that passes the validation
    gets, without any call and without any change of the world, a quote with
    the single allocation [unstake] of ['0'] for the policy's stake asset,
    whatever amount was requested; its [approve] does nothing. *)
Theorem unstake_and_claim_quote (env : Env) (request : ChangeQuoteRequest)
  (w : World) (policy : StakePolicy) (asset0 : AssetId) (rest : list AssetId) :
  let info := currencyInfo (request_wallet request) in
  action request = unstake \/ action request = claim ->
  lookupPolicy (policies (globals w)) (request_stakePolicyId request)
  = Some policy ->
  stakeAssets policy = asset0 :: rest ->
  request_currencyCode request = asset_currencyCode asset0 ->
  asset_pluginId asset0 = currencyInfo_pluginId info ->
  request_currencyCode request = currencyInfo_currencyCode info ->
  exists quote,
    fetchChangeQuote env request w = (Ok quote, w)
    /\ allocations quote
       = [ {| allocationType := "unstake";
              allocation_pluginId := asset_pluginId asset0;
              allocation_currencyCode := asset_currencyCode asset0;
              allocation_nativeAmount := 0 |} ]
    /\ forall w0, approve quote w0 = (Ok tt, w0).
Proof.
  intros info Haction Hfind Hassets Hcc Hplugin Hmain.
  unfold fetchChangeQuote. fold info.
  rewrite (bind_ok _ _ _ _ _ (getPolicyFromId_ok _ _ _ Hfind)).
  rewrite Hassets.
  rewrite <- Hcc, Hplugin, <- Hmain, !String.eqb_refl. cbn [negb].
  destruct Haction as [-> | ->]; cbn [changeQuoteFuncs];
    unfold unstakeRequest; rewrite Hassets;
    (eexists; split; [reflexivity|];
     split; [cbn [allocations]; rewrite Hcc, Hplugin; reflexivity|]);
    intros w0; reflexivity.
Qed.

Lemma unstake_and_claim_quote_witness :
  exists quote,
    fetchChangeQuote sampleEnv
      (sampleRequest claim btcPolicyId "BTC" 25000
         (sampleWallet "bitcoin" "BTC" 40000 0 3000))
      initialWorld
    = (Ok quote, initialWorld)
    /\ allocations quote
       = [ {| allocationType := "unstake";
              allocation_pluginId := "bitcoin";
              allocation_currencyCode := "BTC";
              allocation_nativeAmount := 0 |} ]
    /\ forall w0, approve quote w0 = (Ok tt, w0).
Proof.
  apply (unstake_and_claim_quote sampleEnv
           (sampleRequest claim btcPolicyId "BTC" 25000
              (sampleWallet "bitcoin" "BTC" 40000 0 3000))
           initialWorld (tcPolicy btcPolicyId "bitcoin" "BTC")
           {| asset_pluginId := "bitcoin"; asset_currencyCode := "BTC" |} []).
  - right. reflexivity.
  - reflexivity.
  - reflexivity.
  - reflexivity.
  - reflexivity.
  - reflexivity.
Defined.

(** X16: the action [unstakeExact] is accepted by the request type but has
    no entry in [changeQuoteFuncs]: a request that passes the validation
    fails with a [TypeError], without any call and without any change of the
    world. *)
Theorem unstakeExact_not_a_function (env : Env) (request : ChangeQuoteRequest)
  (w : World) (policy : StakePolicy) (asset0 : AssetId) (rest : list AssetId) :
  let info := currencyInfo (request_wallet request) in
  action request = unstakeExact ->
  lookupPolicy (policies (globals w)) (request_stakePolicyId request)
  = Some policy ->
  stakeAssets policy = asset0 :: rest ->
  request_currencyCode request = asset_currencyCode asset0 ->
  asset_pluginId asset0 = currencyInfo_pluginId info ->
  request_currencyCode request = currencyInfo_currencyCode info ->
  exists message,
    fetchChangeQuote env request w = (Throw (TypeError message), w).
Proof.
  intros info Haction Hfind Hassets Hcc Hplugin Hmain.
  unfold fetchChangeQuote. fold info.
  rewrite (bind_ok _ _ _ _ _ (getPolicyFromId_ok _ _ _ Hfind)).
  rewrite Hassets.
  rewrite <- Hcc, Hplugin, <- Hmain, !String.eqb_refl. cbn [negb].
  rewrite Haction. cbn [changeQuoteFuncs]. unfold throw. eauto.
Qed.

Lemma unstakeExact_not_a_function_witness :
  exists message,
    fetchChangeQuote sampleEnv
      (sampleRequest unstakeExact btcPolicyId "BTC" 25000
         (sampleWallet "bitcoin" "BTC" 40000 0 3000))
      initialWorld
    = (Throw (TypeError message), initialWorld).
Proof.
  apply (unstakeExact_not_a_function sampleEnv
           (sampleRequest unstakeExact btcPolicyId "BTC" 25000
              (sampleWallet "bitcoin" "BTC" 40000 0 3000))
           initialWorld (tcPolicy btcPolicyId "bitcoin" "BTC")
           {| asset_pluginId := "bitcoin"; asset_currencyCode := "BTC" |} []);
    reflexivity.
Defined.

(** ** [fetchStakePosition]: errors and amounts *)

(** X17: [fetchStakePosition] refreshes the inbound addresses before it looks
    at the policy: for an unknown policy id it first makes the calls of
    [updateInboundAddresses]; if that refresh throws, its exception is the
    result, otherwise the result is [Cannot find policy <id>]. *)
Theorem fetchStakePosition_unknown_policy (env : Env)
  (request : StakePositionRequest) (w : World) :
  Forall (fun policy => stakePolicyId policy <> position_stakePolicyId request)
    (policies (globals w)) ->
  fetchStakePosition env request w
  = match updateInboundAddresses env w with
    | (Ok _, w1) =>
        (Throw (JsError ("Cannot find policy " ++ position_stakePolicyId request)),
         w1)
    | (Throw e, w1) => (Throw e, w1)
    end.
Proof.
  intros Hnone.
  unfold fetchStakePosition, fetchPositionData.
  unfold bind at 1. unfold bind at 1.
  destruct (updateInboundAddresses env w) as [[u|e] w1] eqn:E; [|reflexivity].
  pose proof (updateInboundAddresses_keeps_policies env _ _ _ E) as Hsame.
  unfold same_policies in Hsame. rewrite <- Hsame in Hnone.
  unfold bind at 1, getPolicyFromId, getGlobals, bind.
  now rewrite (lookupPolicy_none _ _ Hnone).
Qed.

Lemma fetchStakePosition_unknown_policy_witness :
  fetchStakePosition sampleEnv (samplePositionRequest "tcsavers/none")
    initialWorld
  = (Throw (JsError "Cannot find policy tcsavers/none"),
     snd (updateInboundAddresses sampleEnv initialWorld)).
Proof.
  rewrite (fetchStakePosition_unknown_policy sampleEnv
             (samplePositionRequest "tcsavers/none") initialWorld).
  - reflexivity.
  - repeat constructor; discriminate.
Defined.

Lemma positionAmounts_whole (wallet : EdgeCurrencyWallet)
  (currencyCode : string) (saver : option Saver) (pool : option Pool)
  (w w' : World) (amounts : BigNum * BigNum) :
  positionAmounts wallet currencyCode saver pool w = (Ok amounts, w') ->
  Qden (fst amounts) = 1%positive /\ Qden (snd amounts) = 1%positive.
Proof.
  unfold positionAmounts. intros H.
  destruct saver as [saver|], pool as [pool|]; prog_inv;
    try (split; reflexivity).
  split; [reflexivity|].
  cbn [snd]. unfold biggystring.max.
  destruct (biggystring.gt _ 0); reflexivity.
Qed.

(** X18: a position returned by [fetchStakePosition] has exactly two
    allocations, [staked] then [earned], both for the stake asset of the
    policy with the requested id, and both amounts are whole numbers of
    native units. *)
Theorem fetchStakePosition_allocations (env : Env)
  (request : StakePositionRequest) (w w' : World) (position : StakePosition) :
  fetchStakePosition env request w = (Ok position, w') ->
  exists policy asset0 rest stakedAmount earnedAmount,
    In policy (policies (globals w))
    /\ stakePolicyId policy = position_stakePolicyId request
    /\ stakeAssets policy = asset0 :: rest
    /\ position_allocations position
       = [ {| position_pluginId := asset_pluginId asset0;
              position_currencyCode := asset_currencyCode asset0;
              position_allocationType := "staked";
              position_nativeAmount := stakedAmount |};
           {| position_pluginId := asset_pluginId asset0;
              position_currencyCode := asset_currencyCode asset0;
              position_allocationType := "earned";
              position_nativeAmount := earnedAmount |} ]
    /\ Qden stakedAmount = 1%positive
    /\ Qden earnedAmount = 1%positive.
Proof.
  intros H.
  destruct (fetchStakePosition_ok _ _ _ _ _ H)
    as (d & w1 & amounts & Hdata & Hamounts & ->).
  destruct (positionAmounts_whole _ _ _ _ _ _ _ Hamounts) as [Hs He].
  unfold fetchPositionData in Hdata.
  apply bind_inv_ok in Hdata as (u & w2 & Hupd & Hdata).
  apply bind_inv_ok in Hdata as (policy & w3 & Hpol & Hdata).
  pose proof (getPolicyFromId_cases w2 (position_stakePolicyId request)) as S.
  rewrite Hpol in S. destruct S as (-> & Hid & Hin).
  pose proof (updateInboundAddresses_keeps_policies env _ _ _ Hupd) as Hsame.
  unfold same_policies in Hsame. rewrite Hsame in Hin.
  destruct (stakeAssets policy) as [|asset0 rest] eqn:Hassets;
    [discriminate Hdata|].
  apply bind_inv_ok in Hdata as (pa & w4 & _ & Hdata).
  apply bind_inv_ok in Hdata as (responses & w5 & _ & Hdata).
  apply bind_inv_ok in Hdata as (savers & w6 & _ & Hdata).
  apply bind_inv_ok in Hdata as (pools & w7 & _ & Hdata).
  unfold ret in Hdata. injection Hdata as <- _.
  exists policy, asset0, rest, (fst amounts), (snd amounts).
  repeat split; assumption.
Qed.

Lemma fetchStakePosition_allocations_witness :
  exists policy asset0 rest stakedAmount earnedAmount,
    In policy (policies (globals initialWorld))
    /\ stakePolicyId policy = btcPolicyId
    /\ stakeAssets policy = asset0 :: rest
    /\ position_allocations
         (match fst (fetchStakePosition sampleEnv
                       (samplePositionRequest btcPolicyId) initialWorld) with
          | Ok position => position
          | Throw _ =>
              {| position_allocations := [];
                 canStake := false; canUnstake := false; canClaim := false |}
          end)
       = [ {| position_pluginId := asset_pluginId asset0;
              position_currencyCode := asset_currencyCode asset0;
              position_allocationType := "staked";
              position_nativeAmount := stakedAmount |};
           {| position_pluginId := asset_pluginId asset0;
              position_currencyCode := asset_currencyCode asset0;
              position_allocationType := "earned";
              position_nativeAmount := earnedAmount |} ]
    /\ Qden stakedAmount = 1%positive
    /\ Qden earnedAmount = 1%positive.
Proof.
  apply (fetchStakePosition_allocations sampleEnv
           (samplePositionRequest btcPolicyId) initialWorld
           (snd (fetchStakePosition sampleEnv
                   (samplePositionRequest btcPolicyId) initialWorld))).
  vm_compute. reflexivity.
Defined.

(** ** The tables agree *)

(** X19: as long as the policies are the initial ones up to their [apy]
    (which [makeTcSaversPlugin] guarantees), every policy found by id has
    exactly one stake asset, the same as its reward asset; the plugin of that
    asset has a minimum amount in [policyCurrencyInfos], and its main-net
    code in [MAINNET_CODE_TRANSCRIPTION] is the asset's currency code. *)
Theorem known_policies_are_supported (ps : list StakePolicy)
  (policyId : string) (policy : StakePolicy) :
  map policy_shape ps = map policy_shape initialPolicies ->
  lookupPolicy ps policyId = Some policy ->
  exists asset0 info,
    stakeAssets policy = [asset0]
    /\ rewardAssets policy = [asset0]
    /\ policyCurrencyInfos !! asset_pluginId asset0 = Some info
    /\ MAINNET_CODE_TRANSCRIPTION !! asset_pluginId asset0
       = Some (asset_currencyCode asset0).
Proof.
  intros Hshape Hfind. apply lookupPolicy_some in Hfind as [Hin _].
  apply (in_map policy_shape) in Hin. rewrite Hshape in Hin.
  unfold policy_shape at 1 in Hin. simpl in Hin.
  repeat (destruct Hin as [Hin|Hin];
          [injection Hin as _ _ <- <-; do 2 eexists; repeat split; reflexivity|]).
  contradiction.
Qed.

Lemma known_policies_are_supported_witness :
  exists asset0 info,
    stakeAssets (tcPolicy btcPolicyId "bitcoin" "BTC") = [asset0]
    /\ rewardAssets (tcPolicy btcPolicyId "bitcoin" "BTC") = [asset0]
    /\ policyCurrencyInfos !! asset_pluginId asset0 = Some info
    /\ MAINNET_CODE_TRANSCRIPTION !! asset_pluginId asset0
       = Some (asset_currencyCode asset0).
Proof.
  apply (known_policies_are_supported initialPolicies btcPolicyId).
  - reflexivity.
  - reflexivity.
Defined.

(** ** [updateInboundAddresses], twice *)

(** X20: after [updateInboundAddresses] has returned, calling it again at the
    same time returns as well and does not fetch the inbound addresses a
    second time: it only reads the clock and may call [fetchInfo] and the
    console, and the cached inbound addresses stay the same. *)
Theorem updateInboundAddresses_twice (env : Env) (w w1 : World) (u : unit) :
  updateInboundAddresses env w = (Ok u, w1) ->
  exists w2,
    updateInboundAddresses env w1 = (Ok tt, w2)
    /\ calls_only is_fetchInfo w1 w2
    /\ inboundAddresses (globals w2) = inboundAddresses (globals w1)
    /\ inboundAddresses (globals w2) <> None.
Proof.
  intros H.
  pose proof (updateInboundAddresses_fresh_post env w w1 u H) as Hfresh.
  destruct (updateInboundAddresses_tolerant env w1 Hfresh)
    as (w2 & Hrun & Hcalls & Hia & _).
  exists w2. split; [exact Hrun|]. split; [exact Hcalls|].
  split; [exact Hia|]. rewrite Hia. exact (proj1 Hfresh).
Qed.

Lemma updateInboundAddresses_twice_witness :
  exists w2,
    updateInboundAddresses sampleEnv
      (snd (updateInboundAddresses sampleEnv initialWorld))
    = (Ok tt, w2)
    /\ calls_only is_fetchInfo
         (snd (updateInboundAddresses sampleEnv initialWorld)) w2
    /\ inboundAddresses (globals w2)
       = inboundAddresses
           (globals (snd (updateInboundAddresses sampleEnv initialWorld)))
    /\ inboundAddresses (globals w2) <> None.
Proof.
  apply (updateInboundAddresses_twice sampleEnv initialWorld _ tt).
  reflexivity.
Defined.
